(** * Globe region layout: coordinate projection and overlap filter

    A shallow embedding of the geometric core of the globe viewer:
    the module [utils/hexagonUtils] (latLonToVector3, vector3ToLatLon,
    generateGeodesicHexagonGrid; its text is at lines 1156-1338 of
    [src/components/Earth.tsx]) and the component [Earth] (lines 474-1134
    of the same file: areHexagonsTooClose, the continents overlap filter,
    the polar snow loops and the colour classification).

    Numbers.  The program computes with JavaScript numbers (IEEE doubles).
    Here every number is a real: [Math.sin], [Math.cos], [Math.acos],
    [Math.sqrt] and [Math.PI] are the functions and the constant of the
    Standard Library's reals, so each statement below is about the
    formulas of the program in exact arithmetic.  Rounding is not
    modelled.  Integer loop counters are in [Z]. *)

From Stdlib Require Import Reals Lra Lia ZArith List String Ascii Bool.
Import ListNotations.

Open Scope R_scope.

(** ** The parts of the JavaScript [Math] object and of the operators
    that the program uses *)

Module MathJs.

(** [a < b] as a boolean. *)
Definition ltb (a b : R) : bool := if Rlt_dec a b then true else false.

(** [Math.max] and [Math.min] on two arguments. *)
Definition max (a b : R) : R := Rmax a b.
Definition min (a b : R) : R := Rmin a b.

(** [Math.atan2 y x]: the angle of the point [(x, y)], in (-PI, PI].
    At the origin the result is 0. *)
Definition atan2 (y x : R) : R :=
  if Rlt_dec 0 x then atan (y / x)
  else if Rlt_dec x 0 then
    (if Rle_dec 0 y then atan (y / x) + PI else atan (y / x) - PI)
  else if Rlt_dec 0 y then PI / 2
  else if Rlt_dec y 0 then - (PI / 2)
  else 0.

(** [Math.trunc]: rounding towards zero. *)
Definition trunc (a : R) : R :=
  if Rle_dec 0 a then IZR (Int_part a) else - IZR (Int_part (- a)).

(** [a % b]: the remainder of the division truncated towards zero; it has
    the sign of [a]. *)
Definition rem (a b : R) : R := a - b * trunc (a / b).

(** [a / b] where the divisor is computed at run time.  A quotient whose
    divisor is zero is not a finite number in IEEE arithmetic (an
    infinity, or NaN for 0/0): [None]. *)
Definition div (a b : R) : option R :=
  if Req_dec_T b 0 then None else Some (a / b).

(** [Math.floor] of a finite number. *)
Definition floor (a : R) : Z := Int_part a.

End MathJs.

(** Sequencing of computations that may leave the finite numbers. *)
Definition bind {A B : Type} (m : option A) (k : A -> option B) : option B :=
  match m with
  | Some a => k a
  | None => None
  end.

Notation "x <- m ;; k" := (bind m (fun x => k))
  (at level 61, m at next level, right associativity).

(** All results of a list of computations, when each of them has one. *)
Fixpoint sequence {A : Type} (l : list (option A)) : option (list A) :=
  match l with
  | [] => Some []
  | m :: rest => a <- m ;; r <- sequence rest ;; Some (a :: r)
  end.

(** ** hexagonUtils.ts *)

Module HexagonUtils.

(** THREE.Vector3, with the two methods the program calls. *)
Record Vector3 : Type := mkVector3 { vx : R; vy : R; vz : R }.

Definition length (v : Vector3) : R :=
  sqrt (vx v * vx v + vy v * vy v + vz v * vz v).

Definition distanceTo (a b : Vector3) : R :=
  let dx := vx a - vx b in
  let dy := vy a - vy b in
  let dz := vz a - vz b in
  sqrt (dx * dx + dy * dy + dz * dz).

(** The id is [hex-i-j]: the row and the column. *)
Record HexagonData : Type := mkHexagonData {
  id : Z * Z;
  position : Vector3;
  vertices : list Vector3;
  center : Vector3;
  lat : R;
  lon : R
}.

(** Convert lat/lon to 3D coordinates on a sphere. *)
Definition latLonToVector3 (lat lon radius : R) : Vector3 :=
  let phi := (90 - lat) * (PI / 180) in
  let theta := (lon + 180) * (PI / 180) in
  let x := - (radius * sin phi * cos theta) in
  let z := radius * sin phi * sin theta in
  let y := radius * cos phi in
  mkVector3 x y z.

(** Convert 3D vector to lat/lon. *)
Definition vector3ToLatLon (vector : Vector3) : R * R :=
  let lat := 90 - (acos (vy vector / length vector) * 180) / PI in
  let lon :=
    MathJs.rem ((MathJs.atan2 (vz vector) (- vx vector) * 180) / PI + 180) 360
    - 180 in
  (lat, lon).

(** *** generateGeodesicHexagonGrid, from the inside out *)

(** The latitude and the longitude of vertex [k] of the hexagon centred at
    [(lat, lon)]: the body of the loop on [k], before the projection. *)
Definition vertexLat (hexRadius lat : R) (k : nat) : R :=
  let hexRadiusRad := hexRadius in
  let angle := (PI / 3) * INR k in
  let dLat := hexRadiusRad * cos angle in
  MathJs.max (-90) (MathJs.min 90 (lat + dLat * 180 / PI)).

Definition vertexDLon (hexRadius lat : R) (k : nat) : option R :=
  let hexRadiusRad := hexRadius in
  let angle := (PI / 3) * INR k in
  MathJs.div (hexRadiusRad * sin angle)
             (MathJs.max (cos (lat * PI / 180)) 0.1).

Definition vertexLon (hexRadius lat lon : R) (k : nat) : option R :=
  dLon <- vertexDLon hexRadius lat k ;;
  Some (lon + dLon * 180 / PI).

Definition hexagonVertex (hexRadius lat lon : R) (k : nat) : option Vector3 :=
  vLon <- vertexLon hexRadius lat lon k ;;
  Some (latLonToVector3 (vertexLat hexRadius lat k) vLon 1).

(** The body of the loop on [j]: the hexagon pushed for row [i], column
    [j], centred at [(lat, lon)]. *)
Definition hexagonCell (hexRadius : R) (i j : Z) (lat lon : R)
  : option HexagonData :=
  let center3D := latLonToVector3 lat lon 1 in
  vertices3D <- sequence (map (hexagonVertex hexRadius lat lon) (seq 0 6)) ;;
  Some (mkHexagonData (i, j) center3D vertices3D center3D lat lon).

(** [latSteps = Math.floor(180 / (hexRadius * 180))]. *)
Definition latSteps (hexRadius : R) : option Z :=
  q <- MathJs.div 180 (hexRadius * 180) ;; Some (MathJs.floor q).

(** [lat = -90 + (i * 180) / latSteps]. *)
Definition bandLat (latSteps i : Z) : option R :=
  q <- MathJs.div (IZR i * 180) (IZR latSteps) ;; Some (-90 + q).

(** The divisor of the step count of a band, and the step count:
    [lonSteps = Math.floor(360 / (hexRadius * 180 * Math.cos(lat * Math.PI / 180)))]. *)
Definition lonStepsDivisor (hexRadius lat : R) : R :=
  hexRadius * 180 * cos (lat * PI / 180).

Definition lonSteps (hexRadius lat : R) : option Z :=
  q <- MathJs.div 360 (lonStepsDivisor hexRadius lat) ;; Some (MathJs.floor q).

(** One latitude band.  The loop on [j] runs while [j < lonSteps].  A
    step count that is not finite is the quotient of 360 by a zero, an
    infinity: the loop has no bound, and the band has no result
    ([None]).  With a step count that is at most 0 the loop does not
    run. *)
Definition band (hexRadius : R) (i : Z) (lat : R)
  : option (list HexagonData) :=
  n <- lonSteps hexRadius lat ;;
  if (n <=? 0)%Z then Some []
  else
    let lonStep := 360 / IZR n in
    let offset := IZR (Z.rem i 2) * (lonStep / 2) in
    sequence
      (map (fun j : nat =>
              let lon := -180 + INR j * lonStep + offset in
              hexagonCell hexRadius i (Z.of_nat j) lat lon)
           (seq 0 (Z.to_nat n))).

(** The values of [i] in [for (let i = 0; i <= latSteps; i++)]. *)
Definition bandIndices (latSteps : Z) : list nat :=
  seq 0 (Z.to_nat (latSteps + 1)).

(** The loop on [i] runs while [i <= latSteps].  With [hexRadius = 0] the
    number of latitude steps is the quotient of 180 by zero, an infinity,
    and so is the step count of the first band: no result ([None]).  With
    [latSteps = 0] the only latitude is -90 + 0/0, which is NaN: every
    comparison with the step count of that band fails and nothing is
    pushed. *)
Definition generateGeodesicHexagonGrid (resolution hexRadius : R)
  : option (list HexagonData) :=
  n <- latSteps hexRadius ;;
  rows <- sequence
    (map (fun i : nat =>
            match bandLat n (Z.of_nat i) with
            | Some lat => band hexRadius (Z.of_nat i) lat
            | None => Some []
            end)
         (bandIndices n)) ;;
  Some (List.concat rows).

End HexagonUtils.

(** ** Earth.tsx *)

Module Earth.

Import HexagonUtils.

(** An entry of the catalog, and of the snow list. *)
Record Continent : Type := mkContinent {
  lat : R;
  lon : R;
  size : R;
  color : string
}.

(** Check if two hexagons are too close to each other. *)
Definition areHexagonsTooClose (lat1 lon1 size1 lat2 lon2 size2 : R) : bool :=
  let pos1 := latLonToVector3 lat1 lon1 1 in
  let pos2 := latLonToVector3 lat2 lon2 1 in
  let distance := distanceTo pos1 pos2 in
  let minDistance := (size1 + size2) * 0.9 in
  MathJs.ltb distance minDistance.

(** The inner loop of the filter: does [continent] overlap one of the
    hexagons kept so far?  The loop stops at the first one. *)
Fixpoint overlapsExisting (continent : Continent)
         (filteredContinents : list Continent) : bool :=
  match filteredContinents with
  | [] => false
  | existing :: rest =>
      if areHexagonsTooClose (lat continent) (lon continent) (size continent)
                             (lat existing) (lon existing) (size existing)
      then true
      else overlapsExisting continent rest
  end.

(** The body of the outer loop: [filteredContinents.push(continent)] when
    nothing overlaps. *)
Definition filterStep (filteredContinents : list Continent)
           (continent : Continent) : list Continent :=
  if overlapsExisting continent filteredContinents
  then filteredContinents
  else filteredContinents ++ [continent].

(** The outer loop, from the list kept so far. *)
Fixpoint filterLoop (filteredContinents remaining : list Continent)
  : list Continent :=
  match remaining with
  | [] => filteredContinents
  | continent :: rest =>
      filterLoop (filterStep filteredContinents continent) rest
  end.

(** Filter out overlapping hexagons. *)
Definition filterContinents (allContinents : list Continent)
  : list Continent :=
  filterLoop [] allContinents.

(** The catalog, in the order of the source. *)
Definition allContinents : list Continent :=
  [
    mkContinent 42 (-70) 0.15 "#FFFF00";
    mkContinent 38 (-77) 0.14 "#FFFF00";
    mkContinent 32 (-80) 0.15 "#FFFF00";
    mkContinent 28 (-82) 0.14 "#FFFF00";
    mkContinent 26 (-81) 0.14 "#FFFF00";
    mkContinent 34 (-119) 0.15 "#FFFF00";
    mkContinent 33 (-117) 0.14 "#FFFF00";
    mkContinent 22 (-80) 0.15 "#FFFF00";
    mkContinent 18 (-77) 0.14 "#FFFF00";
    mkContinent 12 (-70) 0.15 "#FFFF00";
    mkContinent 51 1 0.14 "#FFFF00";
    mkContinent 47 (-2) 0.14 "#FFFF00";
    mkContinent 41 2 0.15 "#FFFF00";
    mkContinent 37 (-8) 0.14 "#FFFF00";
    mkContinent 41 12 0.15 "#FFFF00";
    mkContinent 39 22 0.14 "#FFFF00";
    mkContinent 36 28 0.14 "#FFFF00";
    mkContinent 14 18 0.14 "#FFFF00";
    mkContinent 6 3 0.15 "#FFFF00";
    mkContinent (-4) 15 0.14 "#FFFF00";
    mkContinent 26 119 0.15 "#FFFF00";
    mkContinent 21 113 0.14 "#FFFF00";
    mkContinent 13 100 0.15 "#FFFF00";
    mkContinent 1 104 0.14 "#FFFF00";
    mkContinent (-27) 153 0.15 "#FFFF00";
    mkContinent (-16) 145 0.14 "#FFFF00";
    mkContinent (-12) 130 0.15 "#FFFF00";
    mkContinent (-3) (-38) 0.14 "#FFFF00";
    mkContinent (-8) (-35) 0.15 "#FFFF00";
    mkContinent (-12) (-77) 0.14 "#FFFF00";
    mkContinent (-33) (-71) 0.14 "#FFFF00";
    mkContinent 55 (-110) 0.18 "#66BB6A";
    mkContinent 50 (-100) 0.20 "#66BB6A";
    mkContinent 45 (-95) 0.18 "#81C784";
    mkContinent 40 (-100) 0.17 "#66BB6A";
    mkContinent 35 (-110) 0.16 "#66BB6A";
    mkContinent 30 (-85) 0.15 "#A5D6A7";
    mkContinent 25 (-105) 0.15 "#66BB6A";
    mkContinent 20 (-100) 0.12 "#66BB6A";
    mkContinent 45 (-75) 0.14 "#81C784";
    mkContinent 50 (-70) 0.13 "#66BB6A";
    mkContinent 40 (-80) 0.15 "#81C784";
    mkContinent 35 (-90) 0.14 "#66BB6A";
    mkContinent (-5) (-55) 0.17 "#9CCC65";
    mkContinent (-10) (-60) 0.18 "#9CCC65";
    mkContinent (-15) (-50) 0.16 "#AED581";
    mkContinent (-20) (-50) 0.15 "#AED581";
    mkContinent (-25) (-65) 0.16 "#AED581";
    mkContinent (-30) (-55) 0.15 "#9CCC65";
    mkContinent (-35) (-60) 0.14 "#9CCC65";
    mkContinent (-40) (-65) 0.13 "#AED581";
    mkContinent 55 0 0.15 "#4CAF50";
    mkContinent 50 10 0.14 "#4CAF50";
    mkContinent 45 20 0.12 "#66BB6A";
    mkContinent 55 15 0.13 "#66BB6A";
    mkContinent 50 5 0.13 "#66BB6A";
    mkContinent 45 10 0.12 "#81C784";
    mkContinent 20 10 0.17 "#388E3C";
    mkContinent 15 15 0.18 "#388E3C";
    mkContinent 10 20 0.20 "#388E3C";
    mkContinent 5 35 0.16 "#4CAF50";
    mkContinent 0 30 0.18 "#4CAF50";
    mkContinent (-5) 20 0.15 "#66BB6A";
    mkContinent (-10) 25 0.15 "#66BB6A";
    mkContinent (-5) 15 0.14 "#66BB6A";
    mkContinent 5 10 0.14 "#388E3C";
    mkContinent 0 5 0.13 "#4CAF50";
    mkContinent 60 95 0.20 "#66BB6A";
    mkContinent 55 100 0.22 "#66BB6A";
    mkContinent 50 85 0.18 "#81C784";
    mkContinent 45 110 0.20 "#81C784";
    mkContinent 40 95 0.17 "#66BB6A";
    mkContinent 35 105 0.18 "#66BB6A";
    mkContinent 30 120 0.16 "#A5D6A7";
    mkContinent 25 90 0.18 "#A5D6A7";
    mkContinent 20 105 0.15 "#66BB6A";
    mkContinent 55 115 0.19 "#81C784";
    mkContinent 50 125 0.17 "#66BB6A";
    mkContinent 45 100 0.18 "#81C784";
    mkContinent 40 110 0.16 "#66BB6A";
    mkContinent 35 90 0.17 "#A5D6A7";
    mkContinent 30 100 0.15 "#66BB6A";
    mkContinent 25 115 0.16 "#A5D6A7";
    mkContinent (-20) 125 0.15 "#8BC34A";
    mkContinent (-25) 135 0.16 "#8BC34A";
    mkContinent (-30) 145 0.14 "#9CCC65";
    mkContinent (-20) 140 0.14 "#8BC34A";
    mkContinent (-25) 120 0.13 "#9CCC65";
    mkContinent 25 (-80) 0.12 "#66BB6A";
    mkContinent 10 (-75) 0.11 "#81C784";
    mkContinent 60 (-150) 0.13 "#66BB6A";
    mkContinent 40 140 0.14 "#66BB6A";
    mkContinent 20 (-70) 0.12 "#81C784";
    mkContinent 15 (-60) 0.11 "#66BB6A";
    mkContinent 30 50 0.13 "#66BB6A";
    mkContinent 25 45 0.12 "#81C784";
    mkContinent 35 70 0.14 "#66BB6A";
    mkContinent 40 60 0.13 "#81C784";
    mkContinent (-15) (-45) 0.12 "#9CCC65";
    mkContinent (-5) (-40) 0.11 "#AED581";
    mkContinent 40 (-110) 0.13 "#F4A460";
    mkContinent 35 (-105) 0.13 "#F4A460";
    mkContinent 30 (-100) 0.13 "#F4A460";
    mkContinent 25 (-95) 0.12 "#DEB887";
    mkContinent 20 (-105) 0.11 "#D2B48C";
    mkContinent 15 (-100) 0.11 "#DEB887";
    mkContinent 20 (-95) 0.11 "#F4A460";
    mkContinent 15 (-90) 0.10 "#DEB887";
    mkContinent 0 (-80) 0.12 "#F4A460";
    mkContinent (-5) (-75) 0.12 "#F4A460";
    mkContinent (-10) (-70) 0.12 "#F4A460";
    mkContinent (-15) (-75) 0.11 "#DEB887";
    mkContinent (-20) (-70) 0.11 "#D2B48C";
    mkContinent (-25) (-65) 0.11 "#DEB887";
    mkContinent (-30) (-70) 0.10 "#D2B48C";
    mkContinent 35 5 0.12 "#F4A460";
    mkContinent 30 10 0.12 "#F4A460";
    mkContinent 25 15 0.12 "#F4A460";
    mkContinent 20 10 0.13 "#DEB887";
    mkContinent 15 5 0.11 "#D2B48C";
    mkContinent 10 0 0.11 "#DEB887";
    mkContinent 5 10 0.11 "#D2B48C";
    mkContinent 0 5 0.11 "#DEB887";
    mkContinent (-5) 10 0.10 "#D2B48C";
    mkContinent 30 0 0.11 "#F4A460";
    mkContinent 25 5 0.11 "#DEB887";
    mkContinent 20 0 0.11 "#D2B48C";
    mkContinent 40 40 0.12 "#F4A460";
    mkContinent 35 45 0.12 "#F4A460";
    mkContinent 30 50 0.12 "#F4A460";
    mkContinent 25 55 0.11 "#DEB887";
    mkContinent 20 50 0.11 "#D2B48C";
    mkContinent 25 45 0.11 "#DEB887";
    mkContinent 30 40 0.11 "#D2B48C";
    mkContinent 45 95 0.13 "#F4A460";
    mkContinent 40 95 0.13 "#F4A460";
    mkContinent 35 100 0.13 "#F4A460";
    mkContinent 40 90 0.12 "#DEB887";
    mkContinent 45 85 0.12 "#D2B48C";
    mkContinent 35 90 0.12 "#DEB887";
    mkContinent 30 95 0.11 "#D2B48C";
    mkContinent (-10) 130 0.12 "#F4A460";
    mkContinent (-15) 125 0.12 "#F4A460";
    mkContinent (-20) 120 0.12 "#F4A460";
    mkContinent (-25) 130 0.11 "#DEB887";
    mkContinent (-30) 125 0.11 "#D2B48C";
    mkContinent (-10) 135 0.11 "#DEB887";
    mkContinent (-15) 135 0.11 "#D2B48C";
    mkContinent (-20) 130 0.11 "#DEB887";
    mkContinent 35 (-120) 0.11 "#DEB887";
    mkContinent 30 (-120) 0.11 "#DEB887";
    mkContinent 25 (-110) 0.10 "#D2B48C";
    mkContinent 20 (-105) 0.10 "#DEB887";
    mkContinent 45 (-70) 0.11 "#DEB887";
    mkContinent 40 (-75) 0.10 "#D2B48C";
    mkContinent 15 (-90) 0.11 "#DEB887";
    mkContinent 10 (-80) 0.11 "#DEB887";
    mkContinent 5 (-75) 0.10 "#D2B48C";
    mkContinent 0 (-80) 0.10 "#DEB887";
    mkContinent (-5) (-85) 0.10 "#D2B48C";
    mkContinent (-10) (-80) 0.10 "#DEB887";
    mkContinent 55 5 0.11 "#DEB887";
    mkContinent 50 10 0.11 "#DEB887";
    mkContinent 45 5 0.10 "#D2B48C";
    mkContinent 40 0 0.11 "#D2B48C";
    mkContinent 50 (-5) 0.10 "#DEB887";
    mkContinent 20 15 0.11 "#DEB887";
    mkContinent 15 30 0.11 "#DEB887";
    mkContinent 10 35 0.10 "#D2B48C";
    mkContinent 5 30 0.10 "#DEB887";
    mkContinent 0 15 0.10 "#D2B48C";
    mkContinent (-5) 10 0.10 "#DEB887";
    mkContinent 30 35 0.11 "#DEB887";
    mkContinent 25 50 0.11 "#DEB887";
    mkContinent 25 60 0.11 "#DEB887";
    mkContinent 20 70 0.10 "#D2B48C";
    mkContinent 15 75 0.10 "#DEB887";
    mkContinent 10 80 0.10 "#D2B48C";
    mkContinent 35 125 0.11 "#DEB887";
    mkContinent 30 130 0.11 "#DEB887";
    mkContinent 25 135 0.10 "#D2B48C";
    mkContinent 20 120 0.10 "#DEB887";
    mkContinent 15 125 0.10 "#D2B48C";
    mkContinent (-15) 140 0.11 "#DEB887";
    mkContinent (-20) 145 0.10 "#D2B48C";
    mkContinent (-25) 150 0.10 "#DEB887";
    mkContinent (-10) 145 0.10 "#D2B48C";
    mkContinent 28 (-102) 0.12 "#F4A460";
    mkContinent 32 (-108) 0.12 "#DEB887";
    mkContinent (-8) (-72) 0.11 "#F4A460";
    mkContinent (-12) (-68) 0.11 "#DEB887";
    mkContinent 28 8 0.11 "#F4A460";
    mkContinent 22 12 0.11 "#DEB887";
    mkContinent 18 8 0.10 "#D2B48C";
    mkContinent 12 2 0.10 "#DEB887";
    mkContinent 38 48 0.11 "#F4A460";
    mkContinent 33 52 0.11 "#DEB887";
    mkContinent 42 92 0.12 "#F4A460";
    mkContinent 38 88 0.11 "#DEB887";
    mkContinent (-12) 128 0.11 "#F4A460";
    mkContinent (-18) 123 0.11 "#DEB887";
    mkContinent (-28) 128 0.10 "#D2B48C";
    mkContinent 35 (-95) 0.14 "#87CEEB";
    mkContinent 30 (-90) 0.14 "#87CEEB";
    mkContinent 25 (-85) 0.13 "#B0E0E6";
    mkContinent 20 (-80) 0.12 "#87CEEB";
    mkContinent 15 (-75) 0.12 "#B0E0E6";
    mkContinent 10 (-70) 0.13 "#B0E0E6";
    mkContinent 5 (-75) 0.12 "#87CEEB";
    mkContinent 0 (-70) 0.12 "#B0E0E6";
    mkContinent 55 (-5) 0.13 "#87CEEB";
    mkContinent 50 0 0.13 "#87CEEB";
    mkContinent 50 5 0.12 "#B0E0E6";
    mkContinent 45 5 0.12 "#B0E0E6";
    mkContinent 40 10 0.12 "#87CEEB";
    mkContinent 35 15 0.12 "#B0E0E6";
    mkContinent 30 20 0.11 "#87CEEB";
    mkContinent 20 35 0.12 "#87CEEB";
    mkContinent 15 40 0.13 "#87CEEB";
    mkContinent 10 45 0.12 "#B0E0E6";
    mkContinent 30 45 0.13 "#87CEEB";
    mkContinent 25 50 0.13 "#87CEEB";
    mkContinent 20 55 0.12 "#B0E0E6";
    mkContinent 35 125 0.14 "#87CEEB";
    mkContinent 30 120 0.14 "#87CEEB";
    mkContinent 30 125 0.13 "#B0E0E6";
    mkContinent 25 125 0.13 "#B0E0E6";
    mkContinent 20 110 0.12 "#87CEEB";
    mkContinent 15 115 0.12 "#B0E0E6";
    mkContinent 10 110 0.12 "#87CEEB";
    mkContinent (-5) 105 0.13 "#87CEEB";
    mkContinent (-10) 110 0.13 "#87CEEB";
    mkContinent (-5) 115 0.12 "#B0E0E6";
    mkContinent 0 120 0.12 "#87CEEB";
    mkContinent (-15) 150 0.13 "#87CEEB";
    mkContinent (-20) 150 0.13 "#87CEEB";
    mkContinent (-15) 145 0.12 "#B0E0E6";
    mkContinent (-10) 140 0.12 "#87CEEB";
    mkContinent 20 (-60) 0.12 "#87CEEB";
    mkContinent 15 (-55) 0.11 "#B0E0E6";
    mkContinent 50 (-20) 0.12 "#87CEEB";
    mkContinent 45 (-15) 0.11 "#B0E0E6";
    mkContinent 40 (-72) 0.13 "#87CEEB";
    mkContinent 36 (-76) 0.13 "#B0E0E6";
    mkContinent 32 (-79) 0.13 "#87CEEB";
    mkContinent 29 (-81) 0.13 "#B0E0E6";
    mkContinent 27 (-82) 0.12 "#87CEEB";
    mkContinent 36 (-122) 0.13 "#87CEEB";
    mkContinent 32 (-117) 0.13 "#B0E0E6";
    mkContinent 24 (-82) 0.13 "#87CEEB";
    mkContinent 19 (-81) 0.13 "#B0E0E6";
    mkContinent 17 (-88) 0.12 "#87CEEB";
    mkContinent 11 (-85) 0.13 "#B0E0E6";
    mkContinent 9 (-80) 0.12 "#87CEEB";
    mkContinent (-2) (-45) 0.13 "#87CEEB";
    mkContinent (-6) (-35) 0.13 "#B0E0E6";
    mkContinent (-10) (-38) 0.12 "#87CEEB";
    mkContinent (-14) (-42) 0.12 "#B0E0E6";
    mkContinent (-23) (-45) 0.13 "#87CEEB";
    mkContinent 52 4 0.13 "#87CEEB";
    mkContinent 54 8 0.13 "#B0E0E6";
    mkContinent 56 10 0.12 "#87CEEB";
    mkContinent 59 10 0.13 "#B0E0E6";
    mkContinent 43 5 0.13 "#87CEEB";
    mkContinent 41 2 0.13 "#B0E0E6";
    mkContinent 38 (-9) 0.13 "#87CEEB";
    mkContinent 44 8 0.13 "#87CEEB";
    mkContinent 40 14 0.13 "#B0E0E6";
    mkContinent 38 15 0.12 "#87CEEB";
    mkContinent 37 23 0.13 "#B0E0E6";
    mkContinent 35 24 0.13 "#87CEEB";
    mkContinent 12 3 0.13 "#87CEEB";
    mkContinent 5 4 0.13 "#B0E0E6";
    mkContinent (-2) 10 0.13 "#87CEEB";
    mkContinent (-6) 12 0.12 "#B0E0E6";
    mkContinent (-26) 28 0.13 "#87CEEB";
    mkContinent (-34) 18 0.13 "#B0E0E6";
    mkContinent 25 54 0.13 "#87CEEB";
    mkContinent 24 54 0.13 "#B0E0E6";
    mkContinent 19 72 0.13 "#87CEEB";
    mkContinent 13 80 0.13 "#B0E0E6";
    mkContinent 6 80 0.13 "#87CEEB";
    mkContinent 31 121 0.14 "#87CEEB";
    mkContinent 35 129 0.13 "#B0E0E6";
    mkContinent 35 139 0.14 "#87CEEB";
    mkContinent 14 121 0.13 "#87CEEB";
    mkContinent 1 104 0.13 "#B0E0E6";
    mkContinent (-19) 147 0.13 "#87CEEB";
    mkContinent (-23) 151 0.13 "#B0E0E6";
    mkContinent (-28) 153 0.13 "#87CEEB";
    mkContinent (-34) 151 0.13 "#B0E0E6";
    mkContinent (-38) 145 0.13 "#87CEEB";
    mkContinent (-17) 178 0.13 "#87CEEB";
    mkContinent (-21) (-159) 0.13 "#B0E0E6";
    mkContinent 25 (-77) 0.13 "#87CEEB";
    mkContinent 18 (-66) 0.13 "#B0E0E6";
    mkContinent 12 (-69) 0.13 "#87CEEB";
    mkContinent 55 (-3) 0.13 "#87CEEB";
    mkContinent 53 (-3) 0.13 "#B0E0E6";
    mkContinent 48 (-4) 0.13 "#87CEEB";
    mkContinent 45 (-83) 0.13 "#87CEEB";
    mkContinent 43 (-79) 0.13 "#B0E0E6";
    mkContinent 42 (-87) 0.13 "#87CEEB";
    mkContinent 44 (-66) 0.13 "#87CEEB";
    mkContinent 41 (-71) 0.13 "#B0E0E6";
    mkContinent 39 (-74) 0.13 "#87CEEB";
    mkContinent 30 (-87) 0.13 "#87CEEB";
    mkContinent 29 (-95) 0.13 "#B0E0E6";
    mkContinent 27 (-97) 0.13 "#87CEEB";
    mkContinent 48 (-123) 0.13 "#87CEEB";
    mkContinent 46 (-124) 0.13 "#B0E0E6";
    mkContinent 37 (-122) 0.13 "#87CEEB";
    mkContinent 16 (-88) 0.13 "#87CEEB";
    mkContinent 10 (-84) 0.13 "#B0E0E6";
    mkContinent 8 (-80) 0.13 "#87CEEB";
    mkContinent (-12) (-77) 0.13 "#87CEEB";
    mkContinent (-16) (-72) 0.13 "#B0E0E6";
    mkContinent (-33) (-71) 0.13 "#87CEEB";
    mkContinent (-36) (-73) 0.13 "#B0E0E6";
    mkContinent 60 5 0.13 "#87CEEB";
    mkContinent 58 6 0.13 "#B0E0E6";
    mkContinent 55 12 0.13 "#87CEEB";
    mkContinent 57 11 0.13 "#B0E0E6";
    mkContinent 60 25 0.13 "#87CEEB";
    mkContinent 42 3 0.13 "#87CEEB";
    mkContinent 39 3 0.13 "#B0E0E6";
    mkContinent 36 5 0.13 "#87CEEB";
    mkContinent 33 10 0.13 "#B0E0E6";
    mkContinent 32 34 0.13 "#87CEEB";
    mkContinent 35 33 0.13 "#B0E0E6";
    mkContinent 15 38 0.13 "#87CEEB";
    mkContinent 22 39 0.13 "#B0E0E6";
    mkContinent (-4) 39 0.13 "#87CEEB";
    mkContinent (-6) 39 0.13 "#B0E0E6";
    mkContinent (-26) 32 0.13 "#87CEEB";
    mkContinent 26 50 0.13 "#87CEEB";
    mkContinent 25 51 0.13 "#B0E0E6";
    mkContinent 24 54 0.13 "#87CEEB";
    mkContinent 4 73 0.13 "#87CEEB";
    mkContinent (-4) 55 0.13 "#B0E0E6";
    mkContinent (-20) 57 0.13 "#87CEEB";
    mkContinent 22 114 0.13 "#87CEEB";
    mkContinent 22 120 0.13 "#B0E0E6";
    mkContinent 25 121 0.13 "#87CEEB";
    mkContinent 13 100 0.13 "#87CEEB";
    mkContinent 10 106 0.13 "#B0E0E6";
    mkContinent 3 101 0.13 "#87CEEB";
    mkContinent (-6) 106 0.13 "#87CEEB";
    mkContinent (-8) 115 0.13 "#B0E0E6";
    mkContinent 5 119 0.13 "#87CEEB";
    mkContinent 14 121 0.13 "#B0E0E6";
    mkContinent 21 (-157) 0.13 "#87CEEB";
    mkContinent 13 144 0.13 "#87CEEB";
    mkContinent 7 134 0.13 "#B0E0E6";
    mkContinent (-12) 130 0.13 "#87CEEB";
    mkContinent (-32) 115 0.13 "#B0E0E6";
    mkContinent (-31) 115 0.13 "#87CEEB";
    mkContinent 28 (-16) 0.13 "#87CEEB";
    mkContinent 32 (-16) 0.13 "#B0E0E6";
    mkContinent 38 (-28) 0.13 "#87CEEB"
  ].

Definition continents : list Continent := filterContinents allContinents.

(** A loop [for (let v = start; cond(v); v += step)] on an integer
    counter: the values of [v] at which the body runs.  [None] when the
    fuel does not suffice. *)
Fixpoint forLoop (fuel : nat) (cond : Z -> bool) (step v : Z)
  : option (list Z) :=
  if cond v then
    match fuel with
    | O => None
    | S fuel' => rest <- forLoop fuel' cond step (v + step)%Z ;; Some (v :: rest)
    end
  else Some [].

Definition loopFuel : nat := 100.

(** One of the three pairs of nested loops of the snow list: [lon] from
    -180 while [lon < 180], and inside [lat] from [lat0] while
    [latCond]. *)
Definition snowLoop (lonStep lat0 : Z) (latCond : Z -> bool) (latStep : Z)
           (sz : R) : option (list Continent) :=
  lons <- forLoop loopFuel (fun lon => (lon <? 180)%Z) lonStep (-180)%Z ;;
  lats <- forLoop loopFuel latCond latStep lat0 ;;
  Some (flat_map
          (fun lon => map (fun lat => mkContinent (IZR lat) (IZR lon) sz "#FFFFFF")
                          lats)
          lons).

(** Snow hexagons at the poles. *)
Definition snowHexagons : option (list Continent) :=
  north <- snowLoop 30 70 (fun lat => (lat <=? 85)%Z) 8 0.12 ;;
  south <- snowLoop 20 (-85) (fun lat => (lat >=? -60)%Z) (-6) 0.12 ;;
  extra <- snowLoop 15 (-70) (fun lat => (lat >=? -80)%Z) (-5) 0.13 ;;
  Some (north ++ south ++ extra).

(** What the component renders: the snow hexagons, then the filtered
    continents. *)
Definition rendered : option (list Continent) :=
  snow <- snowHexagons ;; Some (snow ++ continents).

(** [String.prototype.includes]. *)
Fixpoint includes (s search : string) : bool :=
  if prefix search s then true
  else match s with
       | EmptyString => false
       | String _ rest => includes rest search
       end.

Inductive HexagonType : Type := beach | green | water | sand | white.

Definition isGreen (c : string) : bool :=
  includes c "66BB6A" || includes c "81C784" ||
  includes c "4CAF50" || includes c "388E3C" ||
  includes c "9CCC65" || includes c "AED581" ||
  includes c "8BC34A" || includes c "A5D6A7".

Definition isBeach (c : string) : bool := includes c "FFFF00".

Definition isWater (c : string) : bool :=
  includes c "87CEEB" || includes c "B0E0E6".

Definition isSand (c : string) : bool :=
  includes c "F4A460" || includes c "DEB887" || includes c "D2B48C".

(** Determine hexagon type: beach has priority, then green, then water,
    then sand, then white. *)
Definition hexagonType (c : string) : HexagonType :=
  if isBeach c then beach
  else if isGreen c then green
  else if isWater c then water
  else if isSand c then sand
  else white.

End Earth.

(** ** Notions of the specification *)

Import HexagonUtils Earth.

(** "Approximately", with the tolerance the specification names. *)
Definition tolerance : R := 1 / 1000000.
Definition approx (a b : R) : Prop := Rabs (a - b) <= tolerance.

(** The distance between the centres of two regions, projected on the unit
    sphere, and the threshold of the pair. *)
Definition centerDistance (a b : Continent) : R :=
  distanceTo (latLonToVector3 (Earth.lat a) (Earth.lon a) 1)
             (latLonToVector3 (Earth.lat b) (Earth.lon b) 1).

Definition threshold (a b : Continent) : R := 0.9 * (size a + size b).

(** The test of the filter, on two entries. *)
Definition tooClose (a b : Continent) : bool :=
  areHexagonsTooClose (Earth.lat a) (Earth.lon a) (size a)
                      (Earth.lat b) (Earth.lon b) (size b).

(** What the filter keeps between any two entries of its result: the
    invariant of its outer loop. *)
Definition farApart (a b : Continent) : Prop :=
  centerDistance a b >= threshold a b.

(** [l1] is [l2] with some elements left out, the others in the same
    order. *)
Inductive Subsequence {A : Type} : list A -> list A -> Prop :=
| Subsequence_nil : Subsequence [] []
| Subsequence_skip x l1 l2 : Subsequence l1 l2 -> Subsequence l1 (x :: l2)
| Subsequence_take x l1 l2 : Subsequence l1 l2 -> Subsequence (x :: l1) (x :: l2).

(** Inputs of the examples: two antipodal points of the equator, the two
    poles, and an entry whose size is negative. *)
Definition equatorWest : Continent := mkContinent 0 0 (10 / 9) "#FFFF00".
Definition equatorEast : Continent := mkContinent 0 180 (10 / 9) "#FFFF00".
Definition northCap : Continent := mkContinent 90 0 1 "#FFFFFF".
Definition southCap : Continent := mkContinent (-90) 0 (11 / 9) "#FFFFFF".
Definition negativeSize : Continent := mkContinent 0 0 (-0.1) "#66BB6A".

(** The first entry of the Asian block of the catalog, and three snow
    hexagons of the northern loop. *)
Definition siberia : Continent := mkContinent 60 95 0.20 "#66BB6A".
Definition snowFirst : Continent := mkContinent 70 (-180) 0.12 "#FFFFFF".
Definition snowSecond : Continent := mkContinent 78 (-180) 0.12 "#FFFFFF".
Definition snowNearSiberia : Continent := mkContinent 70 90 0.12 "#FFFFFF".

(** Two sufficient conditions for an entry to be out of reach of
    [siberia]: it lies at latitude 30 or below, or its longitude differs
    by 60 to 300 degrees. *)
Definition outOfReachOfSiberia (e : Continent) : Prop :=
  (-90 <= Earth.lat e <= 30 /\ 0 <= size e <= 0.2) \/
  (-90 <= Earth.lat e <= 90 /\ 0 <= size e <= 0.22 /\
   (60 <= 95 - Earth.lon e <= 300 \/ 60 <= Earth.lon e - 95 <= 300)).

(** The squared distance of two projected centres, in spherical form. *)
Definition chordSq (lat1 lon1 lat2 lon2 : R) : R :=
  let p1 := (90 - lat1) * (PI / 180) in
  let p2 := (90 - lat2) * (PI / 180) in
  let t1 := (lon1 + 180) * (PI / 180) in
  let t2 := (lon2 + 180) * (PI / 180) in
  2 - 2 * (cos p1 * cos p2 + sin p1 * sin p2 * cos (t1 - t2)).

(** The longitude of vertex [k]: the value of [vertexLon], whose division
    is guarded. *)
Definition vertexLonValue (hexRadius lat lon : R) (k : nat) : R :=
  lon + hexRadius * sin (PI / 3 * INR k)
        / MathJs.max (cos (lat * PI / 180)) 0.1 * 180 / PI.

(** ** More of three.js: the other methods of THREE.Vector3 that the
    components call *)

Module Three.

Definition dot (a b : Vector3) : R :=
  vx a * vx b + vy a * vy b + vz a * vz b.

Definition cross (a b : Vector3) : Vector3 :=
  mkVector3 (vy a * vz b - vz a * vy b)
            (vz a * vx b - vx a * vz b)
            (vx a * vy b - vy a * vx b).

Definition multiplyScalar (v : Vector3) (scalar : R) : Vector3 :=
  mkVector3 (vx v * scalar) (vy v * scalar) (vz v * scalar).

(** [divideScalar(s)] is [multiplyScalar(1 / s)]. *)
Definition divideScalar (v : Vector3) (scalar : R) : Vector3 :=
  multiplyScalar v (1 / scalar).

(** [normalize()] is [divideScalar(length() || 1)]: the zero vector is left
    as it is. *)
Definition normalize (v : Vector3) : Vector3 :=
  divideScalar v (if Req_dec_T (HexagonUtils.length v) 0 then 1
                  else HexagonUtils.length v).

(** [v.lerp(target, alpha)]. *)
Definition lerp (v target : Vector3) (alpha : R) : Vector3 :=
  mkVector3 (vx v + (vx target - vx v) * alpha)
            (vy v + (vy target - vy v) * alpha)
            (vz v + (vz target - vz v) * alpha).

End Three.

(** ** hexagonUtils.ts: the flat hexagon, its projection and the first grid *)

Module HexagonShapes.

(** THREE.Vector2. *)
Record Vector2 : Type := mkVector2 { px : R; py : R }.

(** Generate hexagon vertices in 2D plane. *)
Definition generateHexagonVertices (center : Vector2) (radius : R)
  : list Vector2 :=
  map (fun i : nat =>
         let angle := (PI / 3) * INR i in
         mkVector2 (px center + radius * cos angle)
                   (py center + radius * sin angle))
      (seq 0 6).

(** Project 2D hexagon vertices onto sphere surface: the centre and the
    vertices. *)
Definition projectHexagonToSphere (center2D : Vector2)
           (vertices2D : list Vector2) (radius : R)
  : Vector3 * list Vector3 :=
  let lat := py center2D * 90 in
  let lon := px center2D * 180 in
  let center3D := latLonToVector3 lat lon radius in
  let vertices3D :=
    map (fun v2D =>
           let vLat := py v2D * 90 in
           let vLon := px v2D * 180 in
           latLonToVector3 vLat vLon radius)
        vertices2D in
  (center3D, vertices3D).

(** A loop [for (let v = start; v <= bound; v += step)] on a number: the
    values of [v] at which the body runs.  [None] when the fuel does not
    suffice. *)
Fixpoint forLoopR (fuel : nat) (bound step v : R) : option (list R) :=
  if Rle_dec v bound then
    match fuel with
    | O => None
    | S fuel' => rest <- forLoopR fuel' bound step (v + step) ;; Some (v :: rest)
    end
  else Some [].

(** A hexagon of the first grid.  The id is [hex-centerLat-centerLon].  A
    vertex whose longitude offset is a quotient by zero has coordinates
    that are not finite numbers: [None]. *)
Record GridHexagon : Type := mkGridHexagon {
  gridId : R * R;
  gridCenter : Vector3;
  gridVertices : list (option Vector3);
  gridLat : R;
  gridLon : R
}.

(** The latitude and the longitude of vertex [i], before the projection. *)
Definition gridVertexLat (hexRadius centerLat : R) (i : nat) : R :=
  let hexRadiusRad := hexRadius * PI in
  let angle := (PI / 3) * INR i in
  let dLat := hexRadiusRad * cos angle in
  centerLat + dLat * 180 / PI.

Definition gridVertexLon (hexRadius centerLat centerLon : R) (i : nat)
  : option R :=
  let hexRadiusRad := hexRadius * PI in
  let angle := (PI / 3) * INR i in
  dLon <- MathJs.div (hexRadiusRad * sin angle) (cos (centerLat * PI / 180)) ;;
  Some (centerLon + dLon * 180 / PI).

Definition gridVertex (hexRadius centerLat centerLon : R) (i : nat)
  : option Vector3 :=
  vertexLon <- gridVertexLon hexRadius centerLat centerLon i ;;
  Some (latLonToVector3 (gridVertexLat hexRadius centerLat i) vertexLon 1).

(** The body of the inner loop: nothing when the [continue] is taken, the
    hexagon pushed otherwise. *)
Definition gridCell (hexRadius lat lonOffset lon : R) : list GridHexagon :=
  let centerLat := lat in
  let centerLon := lon + lonOffset in
  if MathJs.ltb centerLat (-90) || MathJs.ltb 90 centerLat then []
  else
    let center3D := latLonToVector3 centerLat centerLon 1 in
    [mkGridHexagon (centerLat, centerLon) center3D
                   (map (gridVertex hexRadius centerLat centerLon) (seq 0 6))
                   centerLat centerLon].

(** [(lat % (latStep * 180)) === 0 ? 0 : lonStep * 90]; a remainder by zero
    is NaN, which is not 0. *)
Definition gridLonOffset (latStep lonStep lat : R) : R :=
  if Req_dec_T (latStep * 180) 0 then lonStep * 90
  else if Req_dec_T (MathJs.rem lat (latStep * 180)) 0 then 0
  else lonStep * 90.

(** One row: the inner loop on [lon]. *)
Definition gridRow (fuel : nat) (hexRadius lat : R)
  : option (list GridHexagon) :=
  let latStep := hexRadius * 2.5 in
  let lonStep := hexRadius * 2.2 in
  let lonOffset := gridLonOffset latStep lonStep lat in
  lons <- forLoopR fuel 180 (lonStep * 180) (-180) ;;
  Some (flat_map (gridCell hexRadius lat lonOffset) lons).

(** Generate hexagonal grid: the outer loop on [lat].  [None] when the
    fuel does not suffice for one of the loops. *)
Definition generateHexagonGrid (fuel : nat) (subdivisions hexRadius : R)
  : option (list GridHexagon) :=
  let latStep := hexRadius * 2.5 in
  lats <- forLoopR fuel 90 (latStep * 90) (-90) ;;
  rows <- sequence (map (gridRow fuel hexRadius) lats) ;;
  Some (List.concat rows).

End HexagonShapes.

(** ** The flat hexagon outline and the placement of a hexagon on the
    sphere (Earth.tsx: createHexagonShape, CartoonContinent; Hexagon.tsx) *)

Module Placement.

Import Three.

(** The calls on a THREE.Shape. *)
Inductive PathCommand : Type :=
| MoveTo (x y : R)
| LineTo (x y : R)
| ClosePath.


(** Calculate rotation to align with sphere surface: the three columns
    given to [makeBasis], from the point the hexagon is placed at. *)
Definition surfaceBasis (position : Vector3) : Vector3 * Vector3 * Vector3 :=
  let up := normalize position in
  let right0 := normalize (cross (mkVector3 1 0 0) up) in
  let right :=
    if MathJs.ltb (HexagonUtils.length right0) 0.1
    then normalize (cross (mkVector3 0 1 0) up)
    else right0 in
  let forward := normalize (cross up right) in
  (right, forward, up).

(** CartoonContinent: the position of the mesh and its basis. *)
Definition cartoonContinentPlacement (lat lon : R)
  : Vector3 * (Vector3 * Vector3 * Vector3) :=
  let position := latLonToVector3 lat lon 1.001 in
  (position, surfaceBasis position).

(** Hexagon: the basis from the centre of the hexagon, the position
    slightly above the sphere surface. *)
Definition hexagonPlacement (hexagonCenter : Vector3)
  : Vector3 * (Vector3 * Vector3 * Vector3) :=
  (multiplyScalar hexagonCenter 1.001, surfaceBasis hexagonCenter).

(** Hexagon: one frame of the scale animation. *)
Definition hexagonScaleFrame (isHovered isSelected : bool) (scale : Vector3)
  : Vector3 :=
  let targetScale := if isHovered || isSelected then 1.15 else 1.0 in
  lerp scale (mkVector3 targetScale targetScale targetScale) 0.1.

End Placement.

(** ** ZoomView.tsx: the camera animation *)

Module ZoomView.

Import Three.

Record SelectedHexagon : Type := mkSelectedHexagon {
  selLat : R;
  selLon : R;
  selType : HexagonType;
  selColor : string
}.

(** The refs of the component, and the camera: its position and the point
    of its last [lookAt]. *)
Record ZoomState : Type := mkZoomState {
  targetPosition : Vector3;
  targetLookAt : Vector3;
  isZooming : bool;
  cameraPosition : Vector3;
  cameraLookAt : Vector3
}.

Definition originalPosition : Vector3 := mkVector3 0 0 3.

(** The effect that runs when the selection changes. *)
Definition onSelectionChange (selectedHexagon : option SelectedHexagon)
           (s : ZoomState) : ZoomState :=
  match selectedHexagon with
  | Some h =>
      let hexPosition := latLonToVector3 (selLat h) (selLon h) 1 in
      mkZoomState (multiplyScalar hexPosition 1.8) hexPosition true
                  (cameraPosition s) (cameraLookAt s)
  | None =>
      mkZoomState originalPosition (mkVector3 0 0 0) true
                  (cameraPosition s) (cameraLookAt s)
  end.

(** Smooth camera animation: the callback of [useFrame]. *)
Definition frame (s : ZoomState) : ZoomState :=
  if isZooming s then
    let position := lerp (cameraPosition s) (targetPosition s) 0.08 in
    let lookAt := lerp (mkVector3 0 0 0) (targetLookAt s) 0.08 in
    mkZoomState (targetPosition s) (targetLookAt s)
                (negb (MathJs.ltb (distanceTo position (targetPosition s)) 0.05))
                position lookAt
  else s.

(** [n] frames. *)
Fixpoint frames (n : nat) (s : ZoomState) : ZoomState :=
  match n with
  | O => s
  | S n' => frames n' (frame s)
  end.

End ZoomView.

(** The hexagon of the flat outline as points. *)
Definition pathPoint (c : Placement.PathCommand) : option HexagonShapes.Vector2 :=
  match c with
  | Placement.MoveTo x y => Some (HexagonShapes.mkVector2 x y)
  | Placement.LineTo x y => Some (HexagonShapes.mkVector2 x y)
  | Placement.ClosePath => None
  end.


(** The hexagons that a pair of snow loops pushes, from the values of its
    two counters. *)
Definition snowRows (lons lats : list Z) (sz : R) : list Continent :=
  flat_map
    (fun lon => map (fun lat => mkContinent (IZR lat) (IZR lon) sz "#FFFFFF") lats)
    lons.

(** The palettes of the classification. *)
Definition greens : list string :=
  ["66BB6A"; "81C784"; "4CAF50"; "388E3C"; "9CCC65"; "AED581"; "8BC34A";
   "A5D6A7"]%string.
Definition blues : list string := ["87CEEB"; "B0E0E6"]%string.
Definition tans : list string := ["F4A460"; "DEB887"; "D2B48C"]%string.

(** The refs of ZoomView and the camera when the component is mounted. *)
Definition initialZoomState : ZoomView.ZoomState :=
  ZoomView.mkZoomState (mkVector3 0 0 3) (mkVector3 0 0 0) false
                       (mkVector3 0 0 3) (mkVector3 0 0 0).

(** [n] frames of the scale animation of a hexagon, with the same flags. *)
Fixpoint hexagonScaleFrames (n : nat) (isHovered isSelected : bool)
         (scale : Vector3) : Vector3 :=
  match n with
  | O => scale
  | S n' =>
      hexagonScaleFrames n' isHovered isSelected
                         (Placement.hexagonScaleFrame isHovered isSelected scale)
  end.

(** The number of values that a loop [for (v = start; v <= start + span;
    v += step)] with a positive step visits. *)
Definition loopCount (span step : R) : nat :=
  S (Z.to_nat (Int_part (span / step))).

(** The hexagon that the first grid pushes for a centre. *)
Definition gridHexagonAt (hexRadius centerLat centerLon : R)
  : HexagonShapes.GridHexagon :=
  HexagonShapes.mkGridHexagon
    (centerLat, centerLon) (latLonToVector3 centerLat centerLon 1)
    (map (HexagonShapes.gridVertex hexRadius centerLat centerLon) (seq 0 6))
    centerLat centerLon.

(** * Lemmas and theorems *)

(** ** Values of the projection *)

Lemma latLonToVector3_0_0 : latLonToVector3 0 0 1 = mkVector3 1 0 0.
Proof.
  unfold latLonToVector3.
  replace ((90 - 0) * (PI / 180)) with (PI / 2) by lra.
  replace ((0 + 180) * (PI / 180)) with PI by lra.
  rewrite sin_PI2, cos_PI2, sin_PI, cos_PI.
  f_equal; lra.
Qed.

Lemma latLonToVector3_0_180 : latLonToVector3 0 180 1 = mkVector3 (-1) 0 0.
Proof.
  unfold latLonToVector3.
  replace ((90 - 0) * (PI / 180)) with (PI / 2) by lra.
  replace ((180 + 180) * (PI / 180)) with (2 * PI) by lra.
  rewrite sin_PI2, cos_PI2, sin_2PI, cos_2PI.
  f_equal; lra.
Qed.

Lemma latLonToVector3_north_pole (lon : R) :
  latLonToVector3 90 lon 1 = mkVector3 0 1 0.
Proof.
  unfold latLonToVector3.
  replace ((90 - 90) * (PI / 180)) with 0 by lra.
  rewrite sin_0, cos_0.
  f_equal; lra.
Qed.

Lemma latLonToVector3_south_pole (lon : R) :
  latLonToVector3 (-90) lon 1 = mkVector3 0 (-1) 0.
Proof.
  unfold latLonToVector3.
  replace ((90 - -90) * (PI / 180)) with PI by lra.
  rewrite sin_PI, cos_PI.
  f_equal; lra.
Qed.

(** ** Claims about the projection *)

(** C4: for every [lat], [lon] and [radius], latLonToVector3 returns
    x = -radius*sin(phi)*cos(theta), z = radius*sin(phi)*sin(theta) and
    y = radius*cos(phi), with phi = (90 - lat)*pi/180 and
    theta = (lon + 180)*pi/180. *)
Theorem C4_projection_formula (lat lon radius : R) :
  let phi := (90 - lat) * PI / 180 in
  let theta := (lon + 180) * PI / 180 in
  vx (latLonToVector3 lat lon radius) = - radius * sin phi * cos theta /\
  vz (latLonToVector3 lat lon radius) = radius * sin phi * sin theta /\
  vy (latLonToVector3 lat lon radius) = radius * cos phi.
Proof.
  intros phi theta. unfold latLonToVector3; simpl.
  replace ((90 - lat) * (PI / 180)) with phi by (unfold phi; lra).
  replace ((lon + 180) * (PI / 180)) with theta by (unfold theta; lra).
  repeat split; ring.
Qed.

(** C3, as the specification states it, fails at the equator: the x
    coordinate of latLonToVector3(0, 0, 1) is not within the tolerance
    of -1. *)
Lemma C3_counterexample :
  ~ (approx (vx (latLonToVector3 0 0 1)) (-1) /\
     approx (vy (latLonToVector3 0 0 1)) 0 /\
     approx (vz (latLonToVector3 0 0 1)) 0).
Proof.
  rewrite latLonToVector3_0_0; simpl.
  unfold approx, tolerance. intros [H _].
  replace (1 - -1) with 2 in H by lra.
  rewrite Rabs_pos_eq in H; lra.
Qed.

(** C3 (amended): latLonToVector3(0, 0, 1) is (x=1, y=0, z=0), and
    latLonToVector3(90, lon, 1) is (x=0, y=1, z=0) for every longitude. *)
Theorem C3_concrete_projections :
  latLonToVector3 0 0 1 = mkVector3 1 0 0 /\
  forall lon : R, latLonToVector3 90 lon 1 = mkVector3 0 1 0.
Proof.
  split.
  - exact latLonToVector3_0_0.
  - exact latLonToVector3_north_pole.
Qed.

(** ** The overlap filter *)

Section Filter.

Lemma tooClose_true (a b : Continent) :
  tooClose a b = true <-> centerDistance a b < threshold a b.
Proof.
  unfold tooClose, areHexagonsTooClose, MathJs.ltb, centerDistance, threshold.
  destruct (Rlt_dec _ _) as [H | H]; split; intro G;
    try discriminate; try reflexivity; lra.
Qed.

Lemma tooClose_false (a b : Continent) :
  tooClose a b = false <-> centerDistance a b >= threshold a b.
Proof.
  rewrite <- not_true_iff_false, tooClose_true. lra.
Qed.

Lemma centerDistance_sym (a b : Continent) :
  centerDistance a b = centerDistance b a.
Proof.
  unfold centerDistance, distanceTo. f_equal. ring.
Qed.

Lemma threshold_sym (a b : Continent) : threshold a b = threshold b a.
Proof. unfold threshold. ring. Qed.

Lemma centerDistance_nonneg (a b : Continent) : 0 <= centerDistance a b.
Proof. apply sqrt_pos. Qed.

Lemma overlapsExisting_false (c : Continent) (acc : list Continent) :
  overlapsExisting c acc = false <->
  Forall (fun e => centerDistance c e >= threshold c e) acc.
Proof.
  induction acc as [| e acc IH]; simpl.
  - split; auto.
  - fold (tooClose c e). destruct (tooClose c e) eqn:E.
    + split; [discriminate |].
      intro H. inversion H as [| ? ? He _]; subst.
      apply tooClose_false in He. congruence.
    + rewrite IH. apply tooClose_false in E.
      split; [intro H; constructor; assumption |].
      intro H; inversion H; assumption.
Qed.

Lemma overlapsExisting_true (c : Continent) (acc : list Continent) :
  overlapsExisting c acc = true <->
  exists e, In e acc /\ centerDistance c e < threshold c e.
Proof.
  induction acc as [| e acc IH]; simpl.
  - split; [discriminate | intros [e [[] _]]].
  - fold (tooClose c e). destruct (tooClose c e) eqn:E.
    + split; [| reflexivity]. intros _. exists e.
      split; [left; reflexivity | now apply tooClose_true].
    + rewrite IH. apply tooClose_false in E.
      split; intros [e' [Hin Hd]].
      * exists e'. split; [right |]; assumption.
      * destruct Hin as [<- | Hin]; [lra | exists e'; split; assumption].
Qed.

Lemma filterLoop_app (acc l1 l2 : list Continent) :
  filterLoop acc (l1 ++ l2) = filterLoop (filterLoop acc l1) l2.
Proof.
  revert acc. induction l1 as [| c l1 IH]; intro acc; simpl.
  - reflexivity.
  - apply IH.
Qed.

Lemma filterContinents_snoc (pre : list Continent) (c : Continent) :
  filterContinents (pre ++ [c]) = filterStep (filterContinents pre) c.
Proof. unfold filterContinents. rewrite filterLoop_app. reflexivity. Qed.

Lemma filterStep_extends (acc : list Continent) (c : Continent) :
  exists added, filterStep acc c = acc ++ added.
Proof.
  unfold filterStep. destruct (overlapsExisting c acc).
  - exists []. now rewrite app_nil_r.
  - exists [c]. reflexivity.
Qed.

Lemma filterLoop_extends (acc rest : list Continent) :
  exists later, filterLoop acc rest = acc ++ later.
Proof.
  revert acc. induction rest as [| c rest IH]; intro acc; simpl.
  - exists []. now rewrite app_nil_r.
  - destruct (filterStep_extends acc c) as [added ->].
    destruct (IH (acc ++ added)) as [later ->].
    exists (added ++ later). now rewrite app_assoc.
Qed.

Lemma farApart_sym (a b : Continent) : farApart a b -> farApart b a.
Proof.
  unfold farApart. rewrite (centerDistance_sym b a), (threshold_sym b a). auto.
Qed.

Lemma ForallOrdPairs_snoc (l : list Continent) (c : Continent) :
  ForallOrdPairs farApart l -> Forall (fun e => farApart e c) l ->
  ForallOrdPairs farApart (l ++ [c]).
Proof.
  induction 1 as [| e l He Hl IH]; intro Hc; simpl.
  - repeat constructor.
  - inversion Hc as [| ? ? Hec Hlc]; subst. constructor.
    + apply Forall_app. split; [assumption |].
      constructor; [assumption | constructor].
    + apply IH. assumption.
Qed.

Lemma filterStep_invariant (acc : list Continent) (c : Continent) :
  ForallOrdPairs farApart acc -> ForallOrdPairs farApart (filterStep acc c).
Proof.
  intro H. unfold filterStep.
  destruct (overlapsExisting c acc) eqn:E; [assumption |].
  apply ForallOrdPairs_snoc; [assumption |].
  apply overlapsExisting_false in E.
  eapply Forall_impl; [| exact E]. intros e He. now apply farApart_sym.
Qed.

Lemma filterLoop_invariant (acc rest : list Continent) :
  ForallOrdPairs farApart acc -> ForallOrdPairs farApart (filterLoop acc rest).
Proof.
  revert acc. induction rest as [| c rest IH]; intros acc H; simpl.
  - assumption.
  - apply IH, filterStep_invariant, H.
Qed.

Lemma ForallOrdPairs_nth (l : list Continent) (i j : nat) (a b : Continent) :
  ForallOrdPairs farApart l -> (i < j)%nat ->
  nth_error l i = Some a -> nth_error l j = Some b -> farApart a b.
Proof.
  intro H. revert i j. induction H as [| e l He Hl IH]; intros i j Hij Hi Hj.
  - destruct i; discriminate.
  - destruct j as [| j]; [lia |]. simpl in Hj.
    destruct i as [| i]; simpl in Hi.
    + injection Hi as <-. rewrite Forall_forall in He.
      apply He. eapply nth_error_In; eassumption.
    + apply (IH i j); [lia | assumption | assumption].
Qed.

Lemma Subsequence_refl {A : Type} (l : list A) : Subsequence l l.
Proof. induction l; constructor; assumption. Qed.

Lemma Subsequence_snoc_skip {A : Type} (l1 l2 : list A) (x : A) :
  Subsequence l1 l2 -> Subsequence l1 (l2 ++ [x]).
Proof.
  induction 1; simpl.
  - apply Subsequence_skip, Subsequence_nil.
  - now apply Subsequence_skip.
  - now apply Subsequence_take.
Qed.

Lemma Subsequence_snoc_take {A : Type} (l1 l2 : list A) (x : A) :
  Subsequence l1 l2 -> Subsequence (l1 ++ [x]) (l2 ++ [x]).
Proof.
  induction 1; simpl.
  - apply Subsequence_take, Subsequence_nil.
  - now apply Subsequence_skip.
  - now apply Subsequence_take.
Qed.

Lemma filterLoop_subsequence (acc done rest : list Continent) :
  Subsequence acc done -> Subsequence (filterLoop acc rest) (done ++ rest).
Proof.
  revert acc done. induction rest as [| c rest IH]; intros acc done H; simpl.
  - now rewrite app_nil_r.
  - replace (done ++ c :: rest) with ((done ++ [c]) ++ rest)
      by (rewrite <- app_assoc; reflexivity).
    apply IH. unfold filterStep. destruct (overlapsExisting c acc).
    + now apply Subsequence_snoc_skip.
    + now apply Subsequence_snoc_take.
Qed.

End Filter.

(** ** The filter on the example inputs *)

Lemma filterContinents_one (a : Continent) : filterContinents [a] = [a].
Proof. reflexivity. Qed.

Lemma filterContinents_two (a b : Continent) :
  tooClose b a = false -> filterContinents [a; b] = [a; b].
Proof.
  intro H. unfold filterContinents; simpl. unfold filterStep; simpl.
  fold (tooClose b a). rewrite H. reflexivity.
Qed.

Lemma sqrt_4 : sqrt 4 = 2.
Proof. apply sqrt_lem_1; lra. Qed.

Lemma centerDistance_equator :
  centerDistance equatorEast equatorWest = 2.
Proof.
  unfold centerDistance, equatorEast, equatorWest; simpl.
  rewrite latLonToVector3_0_0, latLonToVector3_0_180.
  unfold distanceTo; simpl.
  replace ((-1 - 1) * (-1 - 1) + (0 - 0) * (0 - 0) + (0 - 0) * (0 - 0))
    with 4 by ring.
  exact sqrt_4.
Qed.

Lemma threshold_equator : threshold equatorEast equatorWest = 2.
Proof. unfold threshold, equatorEast, equatorWest; simpl. lra. Qed.

Lemma centerDistance_caps : centerDistance southCap northCap = 2.
Proof.
  unfold centerDistance, southCap, northCap; simpl.
  rewrite latLonToVector3_north_pole, latLonToVector3_south_pole.
  unfold distanceTo; simpl.
  replace ((0 - 0) * (0 - 0) + (-1 - 1) * (-1 - 1) + (0 - 0) * (0 - 0))
    with 4 by ring.
  exact sqrt_4.
Qed.

Lemma threshold_caps : threshold southCap northCap = 2.
Proof. unfold threshold, southCap, northCap; simpl. lra. Qed.

Lemma filter_equator :
  filterContinents [equatorWest; equatorEast] = [equatorWest; equatorEast].
Proof.
  apply filterContinents_two, tooClose_false.
  rewrite centerDistance_equator, threshold_equator. lra.
Qed.

Lemma filter_caps : filterContinents [northCap; southCap] = [northCap; southCap].
Proof.
  apply filterContinents_two, tooClose_false.
  rewrite centerDistance_caps, threshold_caps. lra.
Qed.

Lemma filterContinents_accepts (pre : list Continent) (c : Continent) :
  filterContinents (pre ++ [c]) = filterContinents pre ++ [c] <->
  Forall (fun e => centerDistance c e >= threshold c e) (filterContinents pre).
Proof.
  rewrite filterContinents_snoc. unfold filterStep.
  destruct (overlapsExisting c (filterContinents pre)) eqn:E; split.
  - intro H. apply (f_equal (@List.length _)) in H.
    rewrite length_app in H. simpl in H. lia.
  - intro H. apply overlapsExisting_false in H. congruence.
  - intros _. now apply overlapsExisting_false.
  - reflexivity.
Qed.

Lemma filterContinents_rejects (pre : list Continent) (c : Continent) :
  filterContinents (pre ++ [c]) = filterContinents pre <->
  exists e, In e (filterContinents pre) /\ centerDistance c e < threshold c e.
Proof.
  rewrite filterContinents_snoc. unfold filterStep.
  destruct (overlapsExisting c (filterContinents pre)) eqn:E; split.
  - intros _. now apply overlapsExisting_true.
  - reflexivity.
  - intro H. apply (f_equal (@List.length _)) in H.
    rewrite length_app in H. simpl in H. lia.
  - intro H. apply overlapsExisting_true in H. congruence.
Qed.

(** ** Claims about the overlap filter *)

(** C2, as the specification states it, fails on a tie: two antipodal
    points of the equator with sizes 10/9 are both accepted, at a distance
    that equals, and so does not exceed, 0.9 times the sum of the sizes. *)
Lemma C2_counterexample :
  ~ (forall (i j : nat) (a b : Continent),
        i <> j ->
        nth_error (filterContinents [equatorWest; equatorEast]) i = Some a ->
        nth_error (filterContinents [equatorWest; equatorEast]) j = Some b ->
        centerDistance a b > threshold a b).
Proof.
  intro H.
  specialize (H 1%nat 0%nat equatorEast equatorWest).
  rewrite filter_equator in H.
  assert (G : centerDistance equatorEast equatorWest
              > threshold equatorEast equatorWest)
    by (apply H; [discriminate | reflexivity | reflexivity]).
  rewrite centerDistance_equator, threshold_equator in G. lra.
Qed.

(** C2 (amended): for every candidate list, any two distinct entries of the
    output of the overlap filter have projected centres at a distance of
    at least 0.9 times the sum of their sizes. *)
Theorem C2_non_overlap_invariant
        (l : list Continent) (i j : nat) (a b : Continent) :
  i <> j ->
  nth_error (filterContinents l) i = Some a ->
  nth_error (filterContinents l) j = Some b ->
  centerDistance a b >= threshold a b.
Proof.
  intros Hij Hi Hj.
  assert (Inv : ForallOrdPairs farApart (filterContinents l))
    by (apply filterLoop_invariant; constructor).
  destruct (Nat.lt_total i j) as [Hlt | [Heq | Hgt]].
  - exact (ForallOrdPairs_nth _ i j a b Inv Hlt Hi Hj).
  - contradiction.
  - apply farApart_sym. exact (ForallOrdPairs_nth _ j i b a Inv Hgt Hj Hi).
Qed.

(** The theorem at the two caps: both are accepted, at the threshold. *)
Lemma C2_witness :
  nth_error (filterContinents [northCap; southCap]) 0 = Some northCap /\
  nth_error (filterContinents [northCap; southCap]) 1 = Some southCap /\
  centerDistance northCap southCap >= threshold northCap southCap.
Proof.
  assert (H0 : nth_error (filterContinents [northCap; southCap]) 0 = Some northCap)
    by (rewrite filter_caps; reflexivity).
  assert (H1 : nth_error (filterContinents [northCap; southCap]) 1 = Some southCap)
    by (rewrite filter_caps; reflexivity).
  split; [exact H0 | split; [exact H1 |]].
  apply (C2_non_overlap_invariant [northCap; southCap] 0 1 northCap southCap);
    [discriminate | exact H0 | exact H1].
Defined.

(** C5, as the specification states it, fails on a tie: after the north
    cap, the south cap is accepted although its distance to the north cap
    does not exceed the threshold. *)
Lemma C5_counterexample :
  ~ (filterContinents ([northCap] ++ [southCap])
       = filterContinents [northCap] ++ [southCap] <->
     Forall (fun e => centerDistance southCap e > threshold southCap e)
            (filterContinents [northCap])).
Proof.
  intros [H _].
  assert (G : Forall (fun e => centerDistance southCap e > threshold southCap e)
                     (filterContinents [northCap]))
    by (apply H; simpl; rewrite filter_caps; reflexivity).
  rewrite filterContinents_one in G.
  inversion G as [| ? ? G1 _]; subst.
  rewrite centerDistance_caps, threshold_caps in G1. lra.
Qed.

(** C5 (amended): the filter processes the candidates in input order; a
    candidate is accepted if and only if its projected centre is at a
    distance of at least 0.9 times the sum of the sizes from the centre of
    every region accepted before it (the rejected ones are not looked at),
    and is dropped otherwise; the accepted candidates are appended in
    arrival order and none is removed later. *)
Theorem C5_greedy_in_order
        (pre : list Continent) (c : Continent) (post : list Continent) :
  filterContinents (pre ++ c :: post)
    = filterLoop (filterStep (filterContinents pre) c) post /\
  (filterContinents (pre ++ [c]) = filterContinents pre ++ [c] <->
   Forall (fun e => centerDistance c e >= threshold c e) (filterContinents pre)) /\
  (filterContinents (pre ++ [c]) = filterContinents pre <->
   exists e, In e (filterContinents pre) /\ centerDistance c e < threshold c e) /\
  (exists later,
      filterContinents (pre ++ c :: post) = filterContinents (pre ++ [c]) ++ later) /\
  Subsequence (filterContinents (pre ++ c :: post)) (pre ++ c :: post).
Proof.
  split; [| split; [| split; [| split]]].
  - unfold filterContinents. rewrite filterLoop_app. reflexivity.
  - apply filterContinents_accepts.
  - apply filterContinents_rejects.
  - replace (pre ++ c :: post) with ((pre ++ [c]) ++ post)
      by (rewrite <- app_assoc; reflexivity).
    unfold filterContinents at 1. rewrite filterLoop_app.
    apply filterLoop_extends.
  - apply (filterLoop_subsequence [] [] (pre ++ c :: post)). constructor.
Qed.

(** The theorem at the two caps: the south cap is accepted after the north
    cap. *)
Lemma C5_witness :
  Forall (fun e => centerDistance southCap e >= threshold southCap e)
         (filterContinents [northCap]) /\
  filterContinents ([northCap] ++ [southCap])
    = filterContinents [northCap] ++ [southCap].
Proof.
  assert (H : Forall (fun e => centerDistance southCap e >= threshold southCap e)
                     (filterContinents [northCap])).
  { rewrite filterContinents_one. constructor; [| constructor].
    rewrite centerDistance_caps, threshold_caps. lra. }
  split; [exact H |].
  apply (proj1 (proj2 (C5_greedy_in_order [northCap] southCap []))), H.
Defined.

(** C7, as the specification states it, fails: a catalog whose only
    candidate has a negative size is built without any error, and that
    candidate is in the output. *)
Lemma C7_counterexample :
  ~ (forall c : Continent, In c (filterContinents [negativeSize]) -> size c > 0).
Proof.
  intro H. specialize (H negativeSize (or_introl eq_refl)).
  unfold negativeSize in H; simpl in H. lra.
Qed.

(** C7 (amended): the filter checks no size and has no error: it returns a
    list for every catalog; the first candidate of a catalog is always the
    first region of the output, whatever its size, and a candidate is
    accepted whenever the sum of its size and of each accepted size is at
    most zero. *)
Theorem C7_no_size_validation :
  (forall (c : Continent) (rest : list Continent),
      exists out, filterContinents (c :: rest) = c :: out) /\
  (forall (pre : list Continent) (c : Continent),
      Forall (fun e => size c + size e <= 0) (filterContinents pre) ->
      filterContinents (pre ++ [c]) = filterContinents pre ++ [c]).
Proof.
  split.
  - intros c rest. unfold filterContinents; simpl.
    destruct (filterLoop_extends (filterStep [] c) rest) as [later ->].
    exists later. reflexivity.
  - intros pre c H.
    apply filterContinents_accepts.
    eapply Forall_impl; [| exact H]. intros e He; simpl in He.
    pose proof (centerDistance_nonneg c e). unfold threshold. lra.
Qed.

(** The theorem at a catalog that holds the same negative-size candidate
    twice: both copies are accepted. *)
Lemma C7_witness :
  Forall (fun e => size negativeSize + size e <= 0)
         (filterContinents [negativeSize]) /\
  filterContinents ([negativeSize] ++ [negativeSize])
    = filterContinents [negativeSize] ++ [negativeSize].
Proof.
  assert (H : Forall (fun e => size negativeSize + size e <= 0)
                     (filterContinents [negativeSize])).
  { rewrite filterContinents_one. constructor; [| constructor].
    unfold negativeSize; simpl. lra. }
  split; [exact H |].
  apply (proj2 C7_no_size_validation [negativeSize] negativeSize H).
Defined.

(** ** The colour classification *)

Example hexagonType_catalog_colours :
  map hexagonType
      ["#FFFF00"; "#66BB6A"; "#87CEEB"; "#B0E0E6"; "#F4A460"; "#FFFFFF"]%string
  = [beach; green; water; water; sand; white].
Proof. reflexivity. Qed.

(** C6: the classification looks for the beach marker first, then for the
    greens, then for the water blues, then for the tans, and answers white
    (snow) for a colour with none of them; a colour with both the beach
    marker and a water blue is a beach. *)
Theorem C6_classification_precedence (c : string) :
  (isBeach c = true -> hexagonType c = beach) /\
  (isBeach c = false -> isGreen c = true -> hexagonType c = green) /\
  (isBeach c = false -> isGreen c = false -> isWater c = true ->
   hexagonType c = water) /\
  (isBeach c = false -> isGreen c = false -> isWater c = false ->
   isSand c = true -> hexagonType c = sand) /\
  (isBeach c = false -> isGreen c = false -> isWater c = false ->
   isSand c = false -> hexagonType c = white) /\
  (isBeach c = true -> isWater c = true -> hexagonType c = beach).
Proof.
  unfold hexagonType.
  repeat split; intros; repeat match goal with H : _ = _ |- _ => rewrite H; clear H end;
    reflexivity.
Qed.

(** A colour with both the beach marker and a water blue. *)
Lemma C6_witness :
  isBeach "#FFFF0087CEEB" = true /\ isWater "#FFFF0087CEEB" = true /\
  hexagonType "#FFFF0087CEEB" = beach.
Proof.
  split; [reflexivity | split; [reflexivity |]].
  apply (proj2 (proj2 (proj2 (proj2 (proj2
           (C6_classification_precedence "#FFFF0087CEEB")))))); reflexivity.
Defined.

(** ** The geodesic grid *)

Lemma div_nonzero (a b : R) : b <> 0 -> MathJs.div a b = Some (a / b).
Proof.
  intro H. unfold MathJs.div. destruct (Req_dec_T b 0); [contradiction | reflexivity].
Qed.

Lemma div_zero (a : R) : MathJs.div a 0 = None.
Proof.
  unfold MathJs.div. destruct (Req_dec_T 0 0) as [_ | H]; [reflexivity |].
  exfalso; apply H; reflexivity.
Qed.

Lemma vertexLat_range (hexRadius lat : R) (k : nat) :
  -90 <= vertexLat hexRadius lat k <= 90.
Proof.
  unfold vertexLat, MathJs.max, MathJs.min. split.
  - apply Rmax_l.
  - apply Rmax_lub; [lra | apply Rmin_l].
Qed.

Lemma dLon_divisor_floor (lat : R) :
  0.1 <= MathJs.max (cos (lat * PI / 180)) 0.1.
Proof. unfold MathJs.max. apply Rmax_r. Qed.

Lemma vertexDLon_finite (hexRadius lat : R) (k : nat) :
  vertexDLon hexRadius lat k
  = Some (hexRadius * sin (PI / 3 * INR k) / MathJs.max (cos (lat * PI / 180)) 0.1).
Proof.
  unfold vertexDLon. apply div_nonzero.
  pose proof (dLon_divisor_floor lat). lra.
Qed.

Lemma hexagonVertex_finite (hexRadius lat lon : R) (k : nat) :
  exists vLon,
    hexagonVertex hexRadius lat lon k
    = Some (latLonToVector3 (vertexLat hexRadius lat k) vLon 1).
Proof.
  unfold hexagonVertex, vertexLon. rewrite vertexDLon_finite; simpl.
  eexists. reflexivity.
Qed.

Lemma cos_south_pole : cos (-90 * PI / 180) = 0.
Proof.
  replace (-90 * PI / 180) with (- (PI / 2)) by lra.
  rewrite cos_neg. exact cos_PI2.
Qed.

Lemma cos_north_pole : cos (90 * PI / 180) = 0.
Proof.
  replace (90 * PI / 180) with (PI / 2) by lra. exact cos_PI2.
Qed.

Lemma lonStepsDivisor_poles (hexRadius : R) :
  lonStepsDivisor hexRadius (-90) = 0 /\ lonStepsDivisor hexRadius 90 = 0.
Proof.
  unfold lonStepsDivisor. rewrite cos_south_pole, cos_north_pole. lra.
Qed.

Lemma lonSteps_poles (hexRadius : R) :
  lonSteps hexRadius (-90) = None /\ lonSteps hexRadius 90 = None.
Proof.
  unfold lonSteps. destruct (lonStepsDivisor_poles hexRadius) as [-> ->].
  rewrite div_zero. split; reflexivity.
Qed.

Lemma bandLat_first (n : Z) : (1 <= n)%Z -> bandLat n 0 = Some (-90).
Proof.
  intro H. unfold bandLat.
  assert (Hn : IZR n <> 0) by (apply not_0_IZR; lia).
  rewrite (div_nonzero _ _ Hn); simpl. f_equal. field. exact Hn.
Qed.

Lemma bandLat_last (n : Z) : (1 <= n)%Z -> bandLat n n = Some 90.
Proof.
  intro H. unfold bandLat.
  assert (Hn : IZR n <> 0) by (apply not_0_IZR; lia).
  rewrite (div_nonzero _ _ Hn); simpl. f_equal. field. exact Hn.
Qed.

Lemma generate_first_band (resolution hexRadius : R) (n : Z) :
  latSteps hexRadius = Some n -> (1 <= n)%Z ->
  generateGeodesicHexagonGrid resolution hexRadius = None.
Proof.
  intros Hn H1. unfold generateGeodesicHexagonGrid, bandIndices.
  rewrite Hn; simpl.
  replace (Z.to_nat (n + 1)) with (S (Z.to_nat n)) by lia.
  simpl. rewrite (bandLat_first n H1).
  unfold band. rewrite (proj1 (lonSteps_poles hexRadius)). reflexivity.
Qed.

Lemma Int_part_between (r : R) (z : Z) :
  IZR z <= r < IZR z + 1 -> Int_part r = z.
Proof.
  intro H. symmetry. apply Int_part_spec. lra.
Qed.

Lemma latSteps_default : latSteps 0.08 = Some 12%Z.
Proof.
  unfold latSteps. rewrite div_nonzero by lra. simpl. f_equal.
  apply Int_part_between. simpl. lra.
Qed.

Lemma sequence_map_total {A B : Type} (f : A -> option B) (g : A -> B)
      (l : list A) :
  (forall a, f a = Some (g a)) -> sequence (map f l) = Some (map g l).
Proof.
  intro H. induction l as [| a l IH]; simpl.
  - reflexivity.
  - rewrite H, IH. reflexivity.
Qed.

Lemma hexagonVertex_value (hexRadius lat lon : R) (k : nat) :
  hexagonVertex hexRadius lat lon k
  = Some (latLonToVector3 (vertexLat hexRadius lat k)
                          (vertexLonValue hexRadius lat lon k) 1).
Proof.
  unfold hexagonVertex, vertexLon. rewrite vertexDLon_finite. reflexivity.
Qed.

Lemma hexagonCell_vertices (hexRadius : R) (i j : Z) (lat lon : R) :
  exists h,
    hexagonCell hexRadius i j lat lon = Some h /\
    vertices h
    = map (fun k => latLonToVector3 (vertexLat hexRadius lat k)
                                    (vertexLonValue hexRadius lat lon k) 1)
          (seq 0 6).
Proof.
  unfold hexagonCell.
  rewrite (sequence_map_total _ _ _ (hexagonVertex_value hexRadius lat lon)).
  eexists. split; reflexivity.
Qed.

(** C8: for every [resolution] and [hexRadius], each vertex latitude that
    generateGeodesicHexagonGrid computes, at any centre and for any of the
    six vertices, lies within [-90, 90]; the six vertices of the hexagon
    pushed for a row and a column are the projections of these latitudes.
    The argument [resolution] is not used. *)
Theorem C8_vertex_latitude_clamped
        (resolution hexRadius lat lon : R) (i j : Z) (k : nat) :
  -90 <= vertexLat hexRadius lat k <= 90 /\
  (exists h,
      hexagonCell hexRadius i j lat lon = Some h /\
      vertices h
      = map (fun k => latLonToVector3 (vertexLat hexRadius lat k)
                                      (vertexLonValue hexRadius lat lon k) 1)
            (seq 0 6)) /\
  generateGeodesicHexagonGrid resolution hexRadius
  = generateGeodesicHexagonGrid 0 hexRadius.
Proof.
  split; [| split].
  - apply vertexLat_range.
  - apply hexagonCell_vertices.
  - reflexivity.
Qed.

(** C9: with at least one latitude step, the bands run from index 0 to
    index [latSteps], the first at latitude -90 and the last at +90; there
    the divisor of the longitude step count,
    hexRadius * 180 * cos(lat), is zero, and the count is computed by a
    division that nothing guards: it is not a finite number, and the
    generation has no result.  The 0.1 floor on the cosine protects only
    the longitude offset of the vertices, which is always finite. *)
Theorem C9_pole_band_division_unguarded
        (resolution hexRadius : R) (n : Z) :
  latSteps hexRadius = Some n -> (1 <= n)%Z ->
  In 0%nat (bandIndices n) /\ In (Z.to_nat n) (bandIndices n) /\
  bandLat n 0 = Some (-90) /\ bandLat n n = Some 90 /\
  lonStepsDivisor hexRadius (-90) = 0 /\ lonStepsDivisor hexRadius 90 = 0 /\
  lonSteps hexRadius (-90) = None /\ lonSteps hexRadius 90 = None /\
  generateGeodesicHexagonGrid resolution hexRadius = None /\
  (forall (lat : R) (k : nat),
      0.1 <= MathJs.max (cos (lat * PI / 180)) 0.1 /\
      exists dLon, vertexDLon hexRadius lat k = Some dLon).
Proof.
  intros Hn H1.
  split; [apply in_seq; lia |].
  split; [apply in_seq; lia |].
  split; [now apply bandLat_first |].
  split; [now apply bandLat_last |].
  split; [apply lonStepsDivisor_poles |].
  split; [apply lonStepsDivisor_poles |].
  split; [apply lonSteps_poles |].
  split; [apply lonSteps_poles |].
  split; [now apply (generate_first_band resolution hexRadius n) |].
  intros lat k. split; [apply dLon_divisor_floor |].
  rewrite vertexDLon_finite. eexists. reflexivity.
Qed.

(** The call of the grid component: resolution 12, hexRadius 0.08. *)
Lemma C9_witness :
  latSteps 0.08 = Some 12%Z /\
  lonSteps 0.08 (-90) = None /\
  generateGeodesicHexagonGrid 12 0.08 = None.
Proof.
  pose proof (C9_pole_band_division_unguarded 12 0.08 12 latSteps_default
                ltac:(lia)) as H.
  split; [exact latSteps_default |].
  destruct H as (_ & _ & _ & _ & _ & _ & Hsouth & _ & Hgrid & _).
  split; [exact Hsouth | exact Hgrid].
Defined.

(** ** The inverse projection *)

Lemma trunc_small (a : R) : 0 <= a < 1 -> MathJs.trunc a = 0.
Proof.
  intro H. unfold MathJs.trunc.
  destruct (Rle_dec 0 a) as [_ | N]; [| lra].
  rewrite (Int_part_between a 0); [reflexivity | lra].
Qed.

Lemma trunc_1 : MathJs.trunc 1 = 1.
Proof.
  unfold MathJs.trunc.
  destruct (Rle_dec 0 1) as [_ | N]; [| lra].
  rewrite (Int_part_between 1 1); [reflexivity | lra].
Qed.

Lemma rem_small (a b : R) : 0 <= a < b -> MathJs.rem a b = a.
Proof.
  intro H. unfold MathJs.rem. rewrite trunc_small; [ring |].
  assert (Hb : 0 < / b) by (apply Rinv_0_lt_compat; lra).
  assert (Hbb : b * / b = 1) by (apply Rinv_r; lra).
  unfold Rdiv. split; nra.
Qed.

Lemma rem_self (b : R) : b <> 0 -> MathJs.rem b b = 0.
Proof.
  intro H. unfold MathJs.rem.
  replace (b / b) with 1 by (field; exact H).
  rewrite trunc_1. ring.
Qed.

Lemma sin_cos_square (t : R) : sin t * sin t + cos t * cos t = 1.
Proof. exact (sin2_cos2 t). Qed.

Lemma length_projection (lat lon : R) : length (latLonToVector3 lat lon 1) = 1.
Proof.
  unfold length, latLonToVector3; simpl.
  set (p := (90 - lat) * (PI / 180)). set (t := (lon + 180) * (PI / 180)).
  replace (- (1 * sin p * cos t) * - (1 * sin p * cos t)
           + 1 * cos p * (1 * cos p) + 1 * sin p * sin t * (1 * sin p * sin t))
    with (sin p * sin p * (sin t * sin t + cos t * cos t) + cos p * cos p)
    by ring.
  rewrite sin_cos_square, Rmult_1_r, sin_cos_square. exact sqrt_1.
Qed.

Lemma cos_pos_range (t : R) :
  - PI < t -> t <= PI -> 0 < cos t -> - (PI / 2) < t < PI / 2.
Proof.
  intros Hl Hu Hc. split.
  - destruct (Rlt_le_dec (- (PI / 2)) t) as [H | H]; [exact H | exfalso].
    assert (G : cos (- t) <= 0) by (apply cos_le_0; lra).
    rewrite cos_neg in G. lra.
  - destruct (Rlt_le_dec t (PI / 2)) as [H | H]; [exact H | exfalso].
    assert (G : cos t <= 0) by (apply cos_le_0; lra). lra.
Qed.

Lemma cos_neg_range (t : R) :
  - PI < t -> t <= PI -> cos t < 0 -> t < - (PI / 2) \/ PI / 2 < t.
Proof.
  intros Hl Hu Hc.
  destruct (Rlt_le_dec t (- (PI / 2))) as [H | H]; [left; exact H |].
  destruct (Rlt_le_dec (PI / 2) t) as [H' | H']; [right; exact H' | exfalso].
  assert (G : 0 <= cos t) by (apply cos_ge_0; lra). lra.
Qed.

Lemma cos_zero_range (t : R) :
  - PI < t -> t <= PI -> cos t = 0 -> t = - (PI / 2) \/ t = PI / 2.
Proof.
  intros Hl Hu Hc.
  destruct (Rtotal_order t (- (PI / 2))) as [H | [H | H]]; [exfalso | left; exact H |].
  - assert (G : cos (- t) < 0) by (apply cos_lt_0; lra).
    rewrite cos_neg in G. lra.
  - destruct (Rtotal_order t (PI / 2)) as [H' | [H' | H']];
      [exfalso | right; exact H' | exfalso].
    + assert (G : 0 < cos t) by (apply cos_gt_0; lra). lra.
    + assert (G : cos t < 0) by (apply cos_lt_0; lra). lra.
Qed.

Lemma polar_quotient (s t : R) :
  0 < s -> cos t <> 0 -> s * sin t / (s * cos t) = tan t.
Proof. intros Hs Hc. unfold tan. field. split; lra. Qed.

Lemma tan_minus_PI (t : R) : cos t <> 0 -> tan (t - PI) = tan t.
Proof.
  intro Hc. unfold tan.
  replace (sin (t - PI)) with (- sin t)
    by (rewrite sin_minus, sin_PI, cos_PI; ring).
  replace (cos (t - PI)) with (- cos t)
    by (rewrite cos_minus, sin_PI, cos_PI; ring).
  field. exact Hc.
Qed.

Lemma tan_plus_PI (t : R) : cos t <> 0 -> tan (t + PI) = tan t.
Proof.
  intro Hc. unfold tan. rewrite neg_sin, neg_cos. field. exact Hc.
Qed.

(** atan2 recovers the angle of a point given in polar form. *)
Lemma atan2_polar (s t : R) :
  0 < s -> - PI < t -> t <= PI ->
  MathJs.atan2 (s * sin t) (s * cos t) = t.
Proof.
  intros Hs Hl Hu. unfold MathJs.atan2.
  destruct (Rlt_dec 0 (s * cos t)) as [Hpos | Hnpos].
  - assert (Hc : 0 < cos t) by nra.
    rewrite polar_quotient by lra.
    apply atan_tan, cos_pos_range; assumption.
  - destruct (Rlt_dec (s * cos t) 0) as [Hneg | Hnneg].
    + assert (Hc : cos t < 0) by nra.
      rewrite polar_quotient by lra.
      destruct (Rle_dec 0 (s * sin t)) as [Hsin | Hsin].
      * assert (Hs0 : 0 <= sin t) by nra.
        destruct (cos_neg_range t Hl Hu Hc) as [H | H].
        -- exfalso. assert (G : 0 < sin (- t)) by (apply sin_gt_0; lra).
           rewrite sin_neg in G. lra.
        -- rewrite <- (tan_minus_PI t) by lra.
           rewrite atan_tan by lra. ring.
      * assert (Hs0 : sin t < 0) by nra.
        destruct (cos_neg_range t Hl Hu Hc) as [H | H].
        -- rewrite <- (tan_plus_PI t) by lra.
           rewrite atan_tan by lra. ring.
        -- exfalso. assert (G : 0 <= sin t) by (apply sin_ge_0; lra). lra.
    + assert (Hc : cos t = 0) by nra.
      destruct (cos_zero_range t Hl Hu Hc) as [-> | ->].
      * rewrite sin_neg, sin_PI2.
        destruct (Rlt_dec 0 (s * - (1))) as [H | _]; [lra |].
        destruct (Rlt_dec (s * - (1)) 0) as [_ | H]; [reflexivity | lra].
      * rewrite sin_PI2.
        destruct (Rlt_dec 0 (s * 1)) as [_ | H]; [reflexivity | lra].
Qed.

Lemma sin_colatitude_pos (lat : R) :
  -90 < lat < 90 -> 0 < sin ((90 - lat) * (PI / 180)).
Proof.
  intro H. pose proof PI_RGT_0. apply sin_gt_0; nra.
Qed.

Lemma round_trip_latitude (lat lon : R) :
  -90 <= lat <= 90 ->
  fst (vector3ToLatLon (latLonToVector3 lat lon 1)) = lat.
Proof.
  intro H. unfold vector3ToLatLon. rewrite length_projection. simpl.
  replace (1 * cos ((90 - lat) * (PI / 180)) / 1)
    with (cos ((90 - lat) * (PI / 180))) by field.
  pose proof PI_RGT_0.
  rewrite acos_cos by (split; nra).
  field. lra.
Qed.

(** The longitude that comes back, in terms of the angle that atan2
    recovers. *)
Lemma round_trip_longitude_angle (lat lon t : R) :
  -90 < lat < 90 -> - PI < t -> t <= PI ->
  sin ((lon + 180) * (PI / 180)) = sin t ->
  cos ((lon + 180) * (PI / 180)) = cos t ->
  snd (vector3ToLatLon (latLonToVector3 lat lon 1))
  = MathJs.rem (t * 180 / PI + 180) 360 - 180.
Proof.
  intros Hlat Hl Hu Hsin Hcos. unfold vector3ToLatLon, latLonToVector3. simpl.
  rewrite Hsin, Hcos.
  set (s := sin ((90 - lat) * (PI / 180))).
  replace (1 * s * sin t) with (s * sin t) by ring.
  replace (- - (1 * s * cos t)) with (s * cos t) by ring.
  rewrite atan2_polar; [reflexivity | | assumption | assumption].
  now apply sin_colatitude_pos.
Qed.

(** C1 fails on the code: the latitude comes back, the longitude comes back
    shifted by 180 degrees.  For every latitude strictly between -90 and 90
    and every longitude in [-180, 180], vector3ToLatLon(latLonToVector3(lat,
    lon, 1)) is (lat, lon + 180) when lon < 0 and (lat, lon - 180)
    otherwise. *)
Theorem C1_round_trip_shifts_longitude (lat lon : R) :
  -90 < lat < 90 -> -180 <= lon <= 180 ->
  vector3ToLatLon (latLonToVector3 lat lon 1)
  = (lat, if Rlt_dec lon 0 then lon + 180 else lon - 180).
Proof.
  intros Hlat Hlon. pose proof PI_RGT_0 as Hpi.
  rewrite (surjective_pairing (vector3ToLatLon _)).
  rewrite round_trip_latitude by lra. f_equal.
  set (theta := (lon + 180) * (PI / 180)).
  destruct (Rlt_dec lon 0) as [Hneg | Hnneg].
  - rewrite (round_trip_longitude_angle lat lon theta);
      try reflexivity; try assumption; try (unfold theta; nra).
    replace (theta * 180 / PI + 180) with (lon + 360)
      by (unfold theta; field; lra).
    rewrite rem_small by lra. ring.
  - destruct (Req_dec_T lon 0) as [Hz | Hpos].
    + rewrite (round_trip_longitude_angle lat lon PI);
        try assumption; try lra;
        try (subst lon; replace ((0 + 180) * (PI / 180)) with PI by lra;
             reflexivity).
      replace (PI * 180 / PI + 180) with 360 by (field; lra).
      rewrite rem_self by lra. lra.
    + rewrite (round_trip_longitude_angle lat lon (theta - 2 * PI));
        try assumption; try (unfold theta; nra).
      * replace ((theta - 2 * PI) * 180 / PI + 180) with lon
          by (unfold theta; field; lra).
        rewrite rem_small by lra. ring.
      * fold theta. rewrite <- (sin_period (theta - 2 * PI) 1).
        f_equal. simpl. ring.
      * fold theta. rewrite <- (cos_period (theta - 2 * PI) 1).
        f_equal. simpl. ring.
Qed.

(** The theorem at latitude 0, longitude -90: longitude 90 comes back. *)
Lemma C1_failing_input :
  -90 < 0 < 90 /\ -180 <= -90 <= 180 /\
  vector3ToLatLon (latLonToVector3 0 (-90) 1) = (0, 90) /\
  ~ approx (snd (vector3ToLatLon (latLonToVector3 0 (-90) 1))) (-90).
Proof.
  assert (Hlat : -90 < 0 < 90) by lra.
  assert (Hlon : -180 <= -90 <= 180) by lra.
  pose proof (C1_round_trip_shifts_longitude 0 (-90) Hlat Hlon) as H.
  destruct (Rlt_dec (-90) 0) as [_ | N]; [| lra].
  replace (-90 + 180) with 90 in H by lra.
  split; [exact Hlat | split; [exact Hlon | split; [exact H |]]].
  rewrite H; simpl. unfold approx, tolerance.
  replace (90 - -90) with 180 by lra.
  rewrite Rabs_pos_eq; lra.
Defined.

(** ** Distances on the unit sphere *)

Lemma distanceTo_projections (lat1 lon1 lat2 lon2 : R) :
  distanceTo (latLonToVector3 lat1 lon1 1) (latLonToVector3 lat2 lon2 1)
  = sqrt (chordSq lat1 lon1 lat2 lon2).
Proof.
  unfold distanceTo, latLonToVector3, chordSq; simpl. f_equal.
  set (p1 := (90 - lat1) * (PI / 180)). set (p2 := (90 - lat2) * (PI / 180)).
  set (t1 := (lon1 + 180) * (PI / 180)). set (t2 := (lon2 + 180) * (PI / 180)).
  rewrite cos_minus.
  pose proof (sin_cos_square p1) as Hp1. pose proof (sin_cos_square p2) as Hp2.
  pose proof (sin_cos_square t1) as Ht1. pose proof (sin_cos_square t2) as Ht2.
  transitivity
    (sin p1 * sin p1 * (sin t1 * sin t1 + cos t1 * cos t1) + cos p1 * cos p1
     + (sin p2 * sin p2 * (sin t2 * sin t2 + cos t2 * cos t2) + cos p2 * cos p2)
     - 2 * (cos p1 * cos p2
            + sin p1 * sin p2 * (cos t1 * cos t2 + sin t1 * sin t2))).
  - ring.
  - rewrite Ht1, Ht2, !Rmult_1_r, Hp1, Hp2. ring.
Qed.

Lemma centerDistance_chord (a b : Continent) :
  centerDistance a b
  = sqrt (chordSq (Earth.lat a) (Earth.lon a) (Earth.lat b) (Earth.lon b)).
Proof. apply distanceTo_projections. Qed.

Lemma sqrt_lower (m x : R) : 0 <= m -> m * m <= x -> m <= sqrt x.
Proof.
  intros Hm H. rewrite <- (sqrt_square m Hm). now apply sqrt_le_1_alt.
Qed.

Lemma sqrt_upper (m x : R) : 0 < m -> x < m * m -> sqrt x < m.
Proof.
  intros Hm H. destruct (Rle_dec 0 x) as [Hx | Hx].
  - rewrite <- (sqrt_square m) by lra. apply sqrt_lt_1_alt. lra.
  - rewrite sqrt_neg_0 by lra. exact Hm.
Qed.

Lemma sin_sq_le (x : R) : sin x * sin x <= x * x.
Proof.
  assert (P : forall y, 0 < y -> sin y * sin y <= y * y).
  { intros y Hy. pose proof (sin_lt_x y Hy) as Hu.
    pose proof (SIN_bound y) as [Hl _].
    destruct (Rle_dec y PI) as [Hpi | Hpi].
    - pose proof (sin_ge_0 y (Rlt_le _ _ Hy) Hpi). nra.
    - pose proof PI2_1. nra. }
  destruct (Rtotal_order x 0) as [H | [-> | H]].
  - specialize (P (- x) ltac:(lra)). rewrite sin_neg in P. nra.
  - rewrite sin_0. lra.
  - now apply P.
Qed.

Lemma one_minus_cos_le (x : R) : 1 - cos x <= x * x / 2.
Proof.
  replace x with (2 * (x / 2)) at 1 by field.
  rewrite cos_2a_sin. pose proof (sin_sq_le (x / 2)). nra.
Qed.

(** The chord is at most the hypotenuse of the differences of latitude and
    longitude, in radians. *)
Lemma chordSq_upper (lat1 lon1 lat2 lon2 : R) :
  -90 <= lat1 <= 90 -> -90 <= lat2 <= 90 ->
  chordSq lat1 lon1 lat2 lon2
  <= ((lat1 - lat2) * (PI / 180)) * ((lat1 - lat2) * (PI / 180))
     + ((lon1 - lon2) * (PI / 180)) * ((lon1 - lon2) * (PI / 180)).
Proof.
  intros H1 H2. unfold chordSq. pose proof PI_RGT_0 as Hpi.
  set (p1 := (90 - lat1) * (PI / 180)). set (p2 := (90 - lat2) * (PI / 180)).
  set (dt := (lon1 + 180) * (PI / 180) - (lon2 + 180) * (PI / 180)).
  assert (Hs1 : 0 <= sin p1 <= 1)
    by (split; [apply sin_ge_0; unfold p1; nra | apply SIN_bound]).
  assert (Hs2 : 0 <= sin p2 <= 1)
    by (split; [apply sin_ge_0; unfold p2; nra | apply SIN_bound]).
  pose proof (one_minus_cos_le (p1 - p2)) as Hp. rewrite cos_minus in Hp.
  pose proof (one_minus_cos_le dt) as Ht.
  pose proof (COS_bound dt) as Hc.
  replace ((lat1 - lat2) * (PI / 180)) with (p2 - p1) by (unfold p1, p2; ring).
  replace ((lon1 - lon2) * (PI / 180)) with dt by (unfold dt; ring).
  assert (Hprod : sin p1 * sin p2 * (1 - cos dt) <= 1 - cos dt).
  { assert (0 <= sin p1 * sin p2 <= 1) by nra. nra. }
  nra.
Qed.

(** The chord is at least the chord of the difference of latitude. *)
Lemma chordSq_lower_latitude (lat1 lon1 lat2 lon2 : R) :
  -90 <= lat1 <= 90 -> -90 <= lat2 <= 90 ->
  2 - 2 * cos ((lat1 - lat2) * (PI / 180)) <= chordSq lat1 lon1 lat2 lon2.
Proof.
  intros H1 H2. unfold chordSq. pose proof PI_RGT_0 as Hpi.
  set (p1 := (90 - lat1) * (PI / 180)). set (p2 := (90 - lat2) * (PI / 180)).
  set (dt := (lon1 + 180) * (PI / 180) - (lon2 + 180) * (PI / 180)).
  assert (Hs1 : 0 <= sin p1) by (apply sin_ge_0; unfold p1; nra).
  assert (Hs2 : 0 <= sin p2) by (apply sin_ge_0; unfold p2; nra).
  pose proof (COS_bound dt) as Hc.
  replace ((lat1 - lat2) * (PI / 180)) with (p2 - p1) by (unfold p1, p2; ring).
  rewrite cos_minus.
  assert (Hss : 0 <= sin p1 * sin p2) by (apply Rmult_le_pos; assumption).
  assert (Hprod : sin p1 * sin p2 * cos dt <= sin p1 * sin p2) by nra.
  lra.
Qed.

Lemma cos_le_half (x : R) : PI / 3 <= x <= 5 * (PI / 3) -> cos x <= 1 / 2.
Proof.
  intro H. pose proof PI_RGT_0 as Hpi. rewrite <- cos_PI3.
  destruct (Rle_dec x PI) as [Hx | Hx].
  - apply cos_decr_1; lra.
  - replace (cos x) with (cos (2 * PI - x)).
    + apply cos_decr_1; lra.
    + rewrite <- (cos_neg (2 * PI - x)), <- (cos_period (- (2 * PI - x)) 1).
      f_equal. simpl. ring.
Qed.

Lemma sqrt_3_bounds : 1.73 <= sqrt 3 <= 1.74 /\ sqrt 3 * sqrt 3 = 3.
Proof.
  split; [split |].
  - apply sqrt_lower; lra.
  - rewrite <- (sqrt_square 1.74) by lra. apply sqrt_le_1_alt. lra.
  - apply sqrt_sqrt. lra.
Qed.

Lemma siberia_colatitude :
  cos ((90 - 60) * (PI / 180)) = sqrt 3 / 2 /\
  sin ((90 - 60) * (PI / 180)) = 1 / 2.
Proof.
  replace ((90 - 60) * (PI / 180)) with (PI / 6) by lra.
  split; [exact cos_PI6 | exact sin_PI6].
Qed.

Lemma siberia_far_by_latitude (lat2 lon2 : R) :
  -90 <= lat2 <= 30 -> 0.26 <= chordSq 60 95 lat2 lon2.
Proof.
  intro H. pose proof PI_RGT_0 as Hpi.
  apply Rle_trans with (2 - 2 * cos ((60 - lat2) * (PI / 180))).
  - assert (Hc : cos ((60 - lat2) * (PI / 180)) <= cos (PI / 6))
      by (apply cos_decr_1; nra).
    rewrite cos_PI6 in Hc. pose proof sqrt_3_bounds. lra.
  - apply chordSq_lower_latitude; lra.
Qed.

Lemma siberia_far_by_longitude (lat2 lon2 : R) :
  -90 <= lat2 <= 90 ->
  60 <= 95 - lon2 <= 300 \/ 60 <= lon2 - 95 <= 300 ->
  0.15 <= chordSq 60 95 lat2 lon2.
Proof.
  intros Hlat Hlon. unfold chordSq. pose proof PI_RGT_0 as Hpi.
  destruct siberia_colatitude as [-> ->].
  set (p2 := (90 - lat2) * (PI / 180)).
  set (dt := (95 + 180) * (PI / 180) - (lon2 + 180) * (PI / 180)).
  assert (Hs2 : 0 <= sin p2) by (apply sin_ge_0; unfold p2; nra).
  assert (Hc : cos dt <= 1 / 2).
  { destruct Hlon as [Hl | Hl].
    - apply cos_le_half. unfold dt. nra.
    - rewrite <- cos_neg. apply cos_le_half. unfold dt. nra. }
  pose proof (sin_cos_square p2) as Hp2.
  destruct sqrt_3_bounds as [[Hlo Hhi] Hsq].
  assert (Hdot : sqrt 3 / 2 * cos p2 + 1 / 2 * sin p2 * cos dt
                 <= sqrt 3 / 2 * cos p2 + sin p2 / 4) by nra.
  assert (Hcs : sqrt 3 / 2 * cos p2 + sin p2 / 4 <= 0.92).
  { pose proof (Rle_0_sqr (sqrt 3 / 2 * sin p2 - cos p2 / 4)) as Hq.
    unfold Rsqr in Hq.
    destruct (Rle_dec (sqrt 3 / 2 * cos p2 + sin p2 / 4) 0.92) as [G | G];
      [exact G | exfalso].
    assert (Hx : 0.92 * 0.92 < (sqrt 3 / 2 * cos p2 + sin p2 / 4)
                               * (sqrt 3 / 2 * cos p2 + sin p2 / 4)) by nra.
    assert (Hid : (sqrt 3 / 2 * cos p2 + sin p2 / 4)
                  * (sqrt 3 / 2 * cos p2 + sin p2 / 4)
                  + (sqrt 3 / 2 * sin p2 - cos p2 / 4)
                    * (sqrt 3 / 2 * sin p2 - cos p2 / 4)
                  = (sqrt 3 * sqrt 3 / 4 + 1 / 16)
                    * (sin p2 * sin p2 + cos p2 * cos p2)) by field.
    rewrite Hsq, Hp2 in Hid. lra. }
  lra.
Qed.

Lemma siberia_out_of_reach (e : Continent) :
  outOfReachOfSiberia e -> centerDistance siberia e >= threshold siberia e.
Proof.
  intro H. rewrite centerDistance_chord. unfold threshold, siberia; simpl.
  apply Rle_ge, sqrt_lower.
  - destruct H as [[_ Hs] | [_ [Hs _]]]; lra.
  - destruct H as [[Hlat Hs] | [Hlat [Hs Hlon]]].
    + apply Rle_trans with 0.26; [nra | now apply siberia_far_by_latitude].
    + apply Rle_trans with 0.15; [nra | now apply siberia_far_by_longitude].
Qed.

(** ** The snow hexagons and the catalog entry next to them *)

Example north_loop_latitudes :
  forLoop loopFuel (fun lat => (lat <=? 85)%Z) 8 70 = Some [70; 78]%Z.
Proof. reflexivity. Qed.

(** The second pair of loops starts at -85 and runs while [lat >= -60]: its
    body never runs. *)
Example south_loop_latitudes :
  forLoop loopFuel (fun lat => (lat >=? -60)%Z) (-6) (-85) = Some [].
Proof. reflexivity. Qed.

Example extra_loop_latitudes :
  forLoop loopFuel (fun lat => (lat >=? -80)%Z) (-5) (-70)
  = Some [-70; -75; -80]%Z.
Proof. reflexivity. Qed.

Lemma snowHexagons_entries :
  exists snow,
    snowHexagons = Some snow /\
    List.length snow = 96%nat /\
    nth_error snow 0 = Some snowFirst /\
    nth_error snow 1 = Some snowSecond /\
    nth_error snow 18 = Some snowNearSiberia.
Proof.
  eexists. split; [reflexivity |].
  repeat split; reflexivity.
Qed.

Lemma snow_pair_close : centerDistance snowFirst snowSecond < threshold snowFirst snowSecond.
Proof.
  rewrite centerDistance_chord. unfold threshold, snowFirst, snowSecond; simpl.
  apply sqrt_upper; [lra |].
  eapply Rle_lt_trans; [apply chordSq_upper; lra |].
  pose proof PI_RGT_0. pose proof PI_4. nra.
Qed.

Lemma snow_siberia_close :
  centerDistance snowNearSiberia siberia < threshold snowNearSiberia siberia.
Proof.
  rewrite centerDistance_chord. unfold threshold, snowNearSiberia, siberia; simpl.
  apply sqrt_upper; [lra |].
  eapply Rle_lt_trans; [apply chordSq_upper; lra |].
  pose proof PI_RGT_0. pose proof PI_4. nra.
Qed.

Lemma allContinents_split :
  allContinents = firstn 67 allContinents ++ siberia :: skipn 68 allContinents.
Proof. reflexivity. Qed.

Lemma before_siberia_out_of_reach :
  Forall outOfReachOfSiberia (firstn 67 allContinents).
Proof.
  unfold allContinents. cbn [firstn].
  repeat (apply Forall_cons;
          [unfold outOfReachOfSiberia; cbn [Earth.lat Earth.lon size]; lra |]).
  apply Forall_nil.
Qed.

Lemma Subsequence_In {A : Type} (l1 l2 : list A) (x : A) :
  Subsequence l1 l2 -> In x l1 -> In x l2.
Proof.
  induction 1 as [| y l1 l2 _ IH | y l1 l2 _ IH]; simpl; intro H.
  - exact H.
  - right. now apply IH.
  - destruct H as [H | H]; [left; exact H | right; now apply IH].
Qed.

Lemma filterContinents_In (l : list Continent) (e : Continent) :
  In e (filterContinents l) -> In e l.
Proof.
  apply Subsequence_In.
  apply (filterLoop_subsequence [] [] l). constructor.
Qed.

(** A candidate out of reach of every candidate before it is accepted. *)
Lemma accepted_when_isolated (pre post : list Continent) (c : Continent) :
  Forall (fun e => centerDistance c e >= threshold c e) pre ->
  In c (filterContinents (pre ++ c :: post)).
Proof.
  intro H.
  replace (pre ++ c :: post) with ((pre ++ [c]) ++ post)
    by (rewrite <- app_assoc; reflexivity).
  unfold filterContinents. rewrite filterLoop_app.
  destruct (filterLoop_extends (filterLoop [] (pre ++ [c])) post) as [later ->].
  apply in_or_app. left.
  fold (filterContinents (pre ++ [c])).
  rewrite (proj2 (filterContinents_accepts pre c)).
  - apply in_or_app. right. left. reflexivity.
  - rewrite Forall_forall in *. intros e He.
    apply H. now apply filterContinents_In.
Qed.

Lemma siberia_accepted : In siberia continents.
Proof.
  unfold continents.
  rewrite (f_equal filterContinents allContinents_split).
  apply accepted_when_isolated.
  eapply Forall_impl; [| exact before_siberia_out_of_reach].
  exact siberia_out_of_reach.
Qed.

(** C10: the snow hexagons come from fixed loops and are rendered next to
    the filtered continents without going through the filter, and the
    rendered set breaks the pairwise invariant: two snow hexagons, and a
    snow hexagon and an accepted continent, have projected centres closer
    than 0.9 times the sum of their sizes. *)
Theorem C10_rendered_set_overlaps :
  exists snow,
    snowHexagons = Some snow /\
    List.length snow = 96%nat /\
    rendered = Some (snow ++ continents) /\
    (exists i j a b,
        (i < j)%nat /\ nth_error snow i = Some a /\ nth_error snow j = Some b /\
        centerDistance a b < threshold a b) /\
    (exists a b,
        In a snow /\ In b continents /\ centerDistance a b < threshold a b) /\
    ~ (forall i j a b,
          i <> j ->
          nth_error (snow ++ continents) i = Some a ->
          nth_error (snow ++ continents) j = Some b ->
          centerDistance a b >= threshold a b).
Proof.
  destruct snowHexagons_entries as [snow [Hs [Hlen [H0 [H1 H18]]]]].
  exists snow.
  split; [exact Hs |].
  split; [exact Hlen |].
  split; [unfold rendered; rewrite Hs; reflexivity |].
  split; [| split].
  - exists 0%nat, 1%nat, snowFirst, snowSecond.
    split; [lia |].
    split; [exact H0 |].
    split; [exact H1 | exact snow_pair_close].
  - exists snowNearSiberia, siberia.
    split; [eapply nth_error_In; exact H18 |].
    split; [exact siberia_accepted | exact snow_siberia_close].
  - intro H.
    assert (G : centerDistance snowFirst snowSecond
                >= threshold snowFirst snowSecond).
    { apply (H 0%nat 1%nat); [discriminate | |];
        (rewrite nth_error_app1 by (rewrite Hlen; lia); assumption). }
    pose proof snow_pair_close. lra.
Qed.

(** * Further properties of the code *)

(** ** areHexagonsTooClose *)

Lemma projection_norm_sq (lat lon radius : R) :
  vx (latLonToVector3 lat lon radius) * vx (latLonToVector3 lat lon radius)
  + vy (latLonToVector3 lat lon radius) * vy (latLonToVector3 lat lon radius)
  + vz (latLonToVector3 lat lon radius) * vz (latLonToVector3 lat lon radius)
  = radius * radius.
Proof.
  unfold latLonToVector3; simpl.
  set (p := (90 - lat) * (PI / 180)). set (t := (lon + 180) * (PI / 180)).
  transitivity
    (radius * radius
     * (sin p * sin p * (sin t * sin t + cos t * cos t) + cos p * cos p)).
  - ring.
  - rewrite sin_cos_square, Rmult_1_r, sin_cos_square. ring.
Qed.

Lemma chordSq_nonneg_le_4 (lat1 lon1 lat2 lon2 : R) :
  0 <= chordSq lat1 lon1 lat2 lon2 <= 4.
Proof.
  unfold chordSq.
  set (p1 := (90 - lat1) * (PI / 180)). set (p2 := (90 - lat2) * (PI / 180)).
  set (dt := (lon1 + 180) * (PI / 180) - (lon2 + 180) * (PI / 180)).
  pose proof (sin_cos_square p1) as H1. pose proof (sin_cos_square p2) as H2.
  pose proof (COS_bound dt) as Hc.
  assert (Hd : -1 <= cos p1 * cos p2 + sin p1 * sin p2 * cos dt <= 1).
  { assert (Hss : -1 <= sin p1 * sin p2 <= 1).
    { pose proof (Rle_0_sqr (sin p1 - sin p2)) as Ha.
      pose proof (Rle_0_sqr (sin p1 + sin p2)) as Hb.
      pose proof (Rle_0_sqr (cos p1)) as Hc1. pose proof (Rle_0_sqr (cos p2)) as Hc2.
      unfold Rsqr in *. split; nra. }
    pose proof (Rle_0_sqr (cos p1 - cos p2)) as Ha.
    pose proof (Rle_0_sqr (cos p1 + cos p2)) as Hb.
    pose proof (Rle_0_sqr (sin p1 - sin p2)) as Ha'.
    pose proof (Rle_0_sqr (sin p1 + sin p2)) as Hb'.
    unfold Rsqr in *.
    destruct (Rle_dec 0 (sin p1 * sin p2)) as [Hs | Hs].
    - assert (sin p1 * sin p2 * cos dt <= sin p1 * sin p2) by nra.
      assert (- (sin p1 * sin p2) <= sin p1 * sin p2 * cos dt) by nra.
      split; nra.
    - assert (sin p1 * sin p2 * cos dt <= - (sin p1 * sin p2)) by nra.
      assert (sin p1 * sin p2 <= sin p1 * sin p2 * cos dt) by nra.
      split; nra. }
  lra.
Qed.

Lemma centerDistance_le_2 (a b : Continent) : centerDistance a b <= 2.
Proof.
  rewrite centerDistance_chord, <- sqrt_4.
  apply sqrt_le_1_alt, chordSq_nonneg_le_4.
Qed.

Lemma centerDistance_self (a : Continent) : centerDistance a a = 0.
Proof.
  unfold centerDistance, distanceTo.
  match goal with |- sqrt ?e = 0 => replace e with 0 by ring end.
  exact sqrt_0.
Qed.

Lemma ltb_true (a b : R) : MathJs.ltb a b = true <-> a < b.
Proof.
  unfold MathJs.ltb. destruct (Rlt_dec a b); split; intro H;
    try reflexivity; try discriminate; tauto.
Qed.

Lemma ltb_false (a b : R) : MathJs.ltb a b = false <-> b <= a.
Proof.
  unfold MathJs.ltb. destruct (Rlt_dec a b); split; intro H;
    try reflexivity; try discriminate; lra.
Qed.

(** X1: areHexagonsTooClose does not depend on the order of the two
    hexagons; a hexagon is too close to a hexagon at the same place and of
    the same size exactly when that size is positive; two hexagons whose
    sizes sum to more than 20/9 are too close wherever they are, and two
    hexagons whose sizes sum to zero or less never are. *)
Theorem X1_too_close_properties
        (lat1 lon1 size1 lat2 lon2 size2 : R) :
  areHexagonsTooClose lat1 lon1 size1 lat2 lon2 size2
  = areHexagonsTooClose lat2 lon2 size2 lat1 lon1 size1 /\
  (areHexagonsTooClose lat1 lon1 size1 lat1 lon1 size1 = true <-> 0 < size1) /\
  (20 / 9 < size1 + size2 ->
   areHexagonsTooClose lat1 lon1 size1 lat2 lon2 size2 = true) /\
  (size1 + size2 <= 0 ->
   areHexagonsTooClose lat1 lon1 size1 lat2 lon2 size2 = false).
Proof.
  set (a := mkContinent lat1 lon1 size1 EmptyString).
  set (b := mkContinent lat2 lon2 size2 EmptyString).
  change (tooClose a b = tooClose b a /\
          (tooClose a a = true <-> 0 < size1) /\
          (20 / 9 < size1 + size2 -> tooClose a b = true) /\
          (size1 + size2 <= 0 -> tooClose a b = false)).
  split; [| split; [| split]].
  - destruct (tooClose b a) eqn:E.
    + apply tooClose_true in E. apply tooClose_true.
      now rewrite centerDistance_sym, threshold_sym.
    + apply tooClose_false in E. apply tooClose_false.
      now rewrite centerDistance_sym, threshold_sym.
  - rewrite tooClose_true, centerDistance_self. unfold threshold; simpl. lra.
  - intro H. apply tooClose_true.
    pose proof (centerDistance_le_2 a b). unfold threshold; simpl. lra.
  - intro H. apply tooClose_false.
    pose proof (centerDistance_nonneg a b). unfold threshold; simpl. lra.
Qed.

(** The theorem at two hexagons of size 1.2 at the two poles. *)
Lemma X1_witness :
  20 / 9 < 1.2 + 1.2 /\ areHexagonsTooClose 90 0 1.2 (-90) 0 1.2 = true.
Proof.
  assert (H : 20 / 9 < 1.2 + 1.2) by lra.
  split; [exact H |].
  exact (proj1 (proj2 (proj2 (X1_too_close_properties 90 0 1.2 (-90) 0 1.2))) H).
Defined.

(** ** More on the overlap filter *)

Lemma ForallOrdPairs_app_inv {A : Type} (P : A -> A -> Prop) (l1 l2 : list A) :
  ForallOrdPairs P (l1 ++ l2) ->
  ForallOrdPairs P l1 /\ ForallOrdPairs P l2 /\
  Forall (fun a => Forall (P a) l2) l1.
Proof.
  induction l1 as [| a l1 IH]; simpl; intro H.
  - repeat split; [constructor | assumption | constructor].
  - inversion H as [| ? ? Ha Hl]; subst.
    destruct (IH Hl) as [H1 [H2 H12]].
    apply Forall_app in Ha. destruct Ha as [Ha1 Ha2].
    repeat split; [constructor | | constructor]; assumption.
Qed.

Lemma filterLoop_keeps_far_apart (acc l : list Continent) :
  ForallOrdPairs farApart (acc ++ l) -> filterLoop acc l = acc ++ l.
Proof.
  revert acc. induction l as [| c l IH]; intros acc H; simpl.
  - now rewrite app_nil_r.
  - assert (Hstep : filterStep acc c = acc ++ [c]).
    { unfold filterStep.
      destruct (ForallOrdPairs_app_inv _ _ _ H) as [_ [_ Hacc]].
      assert (E : overlapsExisting c acc = false).
      { apply overlapsExisting_false.
        eapply Forall_impl; [| exact Hacc]. intros e He; simpl in He.
        inversion He; subst. now apply farApart_sym. }
      now rewrite E. }
    rewrite Hstep.
    replace (acc ++ c :: l) with ((acc ++ [c]) ++ l) in *
      by (rewrite <- app_assoc; reflexivity).
    now apply IH.
Qed.

Lemma filterContinents_far_apart (l : list Continent) :
  ForallOrdPairs farApart (filterContinents l).
Proof. apply filterLoop_invariant. constructor. Qed.

(** X2: the filter leaves a catalog unchanged exactly when the entries of
    the catalog are pairwise at least at their threshold distance; so
    filtering a second time changes nothing. *)
Theorem X2_filter_fixed_points (l : list Continent) :
  (filterContinents l = l <-> ForallOrdPairs farApart l) /\
  filterContinents (filterContinents l) = filterContinents l.
Proof.
  assert (F : forall l', ForallOrdPairs farApart l' -> filterContinents l' = l')
    by (intros l' H; apply (filterLoop_keeps_far_apart [] l' H)).
  split; [split |].
  - intro H. rewrite <- H. apply filterContinents_far_apart.
  - apply F.
  - apply F, filterContinents_far_apart.
Qed.

(** The theorem at the two caps, which are at their threshold distance. *)
Lemma X2_witness :
  ForallOrdPairs farApart [northCap; southCap] /\
  filterContinents [northCap; southCap] = [northCap; southCap].
Proof.
  assert (H : ForallOrdPairs farApart [northCap; southCap]).
  { constructor; [| constructor; [constructor | constructor]].
    constructor; [| constructor]. apply farApart_sym. unfold farApart.
    rewrite centerDistance_caps, threshold_caps. lra. }
  split; [exact H |].
  exact (proj2 (proj1 (X2_filter_fixed_points [northCap; southCap])) H).
Defined.

(** X3: the output is maximal: every candidate of the input is in the
    output, or is closer than the threshold to a region of the output. *)
Theorem X3_filter_maximal (l : list Continent) (c : Continent) :
  In c l ->
  In c (filterContinents l) \/
  exists e, In e (filterContinents l) /\ centerDistance c e < threshold c e.
Proof.
  intro H. apply in_split in H. destruct H as [pre [post ->]].
  replace (pre ++ c :: post) with ((pre ++ [c]) ++ post)
    by (rewrite <- app_assoc; reflexivity).
  unfold filterContinents. rewrite filterLoop_app.
  destruct (filterLoop_extends (filterLoop [] (pre ++ [c])) post) as [later ->].
  fold (filterContinents (pre ++ [c])). rewrite filterContinents_snoc.
  unfold filterStep.
  destruct (overlapsExisting c (filterContinents pre)) eqn:E.
  - right. apply overlapsExisting_true in E. destruct E as [e [He Hd]].
    exists e. split; [apply in_or_app; left; exact He | exact Hd].
  - left. apply in_or_app. left. apply in_or_app. right. left. reflexivity.
Qed.

(** The theorem at the second of two snow hexagons: it is dropped, being
    too close to the first. *)
Lemma X3_witness :
  In snowSecond [snowFirst; snowSecond] /\
  (In snowSecond (filterContinents [snowFirst; snowSecond]) \/
   exists e, In e (filterContinents [snowFirst; snowSecond]) /\
             centerDistance snowSecond e < threshold snowSecond e).
Proof.
  assert (H : In snowSecond [snowFirst; snowSecond]) by (right; left; reflexivity).
  split; [exact H |].
  exact (X3_filter_maximal [snowFirst; snowSecond] snowSecond H).
Defined.

(** X4: of two candidates that are too close to each other, the one that
    comes first in the input is the one that is kept. *)
Theorem X4_filter_order_sensitive (a b : Continent) :
  centerDistance a b < threshold a b ->
  filterContinents [a; b] = [a] /\ filterContinents [b; a] = [b].
Proof.
  intro H.
  assert (Hab : tooClose a b = true) by now apply tooClose_true.
  assert (Hba : tooClose b a = true)
    by (apply tooClose_true; now rewrite centerDistance_sym, threshold_sym).
  unfold filterContinents; simpl. unfold filterStep; simpl.
  fold (tooClose a b). fold (tooClose b a). rewrite Hab, Hba.
  split; reflexivity.
Qed.

(** The theorem at two snow hexagons of the same meridian. *)
Lemma X4_witness :
  centerDistance snowFirst snowSecond < threshold snowFirst snowSecond /\
  filterContinents [snowFirst; snowSecond] = [snowFirst] /\
  filterContinents [snowSecond; snowFirst] = [snowSecond].
Proof.
  split; [exact snow_pair_close |].
  exact (X4_filter_order_sensitive snowFirst snowSecond snow_pair_close).
Defined.

(** X5: when every size of the catalog is positive, no two regions of the
    output have the same projected centre; in particular no two have the
    same latitude and longitude. *)
Theorem X5_filter_distinct_centres
        (l : list Continent) (i j : nat) (a b : Continent) :
  Forall (fun c => 0 < size c) l ->
  i <> j ->
  nth_error (filterContinents l) i = Some a ->
  nth_error (filterContinents l) j = Some b ->
  latLonToVector3 (Earth.lat a) (Earth.lon a) 1
    <> latLonToVector3 (Earth.lat b) (Earth.lon b) 1 /\
  (Earth.lat a, Earth.lon a) <> (Earth.lat b, Earth.lon b).
Proof.
  intros Hpos Hij Hi Hj.
  assert (Ha : 0 < size a).
  { rewrite Forall_forall in Hpos. apply Hpos, filterContinents_In.
    eapply nth_error_In; eassumption. }
  assert (Hb : 0 < size b).
  { rewrite Forall_forall in Hpos. apply Hpos, filterContinents_In.
    eapply nth_error_In; eassumption. }
  assert (Hfar : farApart a b).
  { pose proof (filterContinents_far_apart l) as Inv.
    destruct (Nat.lt_total i j) as [Hlt | [Heq | Hgt]].
    - exact (ForallOrdPairs_nth _ i j a b Inv Hlt Hi Hj).
    - contradiction.
    - apply farApart_sym. exact (ForallOrdPairs_nth _ j i b a Inv Hgt Hj Hi). }
  assert (Hne : latLonToVector3 (Earth.lat a) (Earth.lon a) 1
                <> latLonToVector3 (Earth.lat b) (Earth.lon b) 1).
  { intro E. unfold farApart, centerDistance, threshold in Hfar.
    rewrite E in Hfar. unfold distanceTo in Hfar.
    match type of Hfar with sqrt ?e >= _ =>
      replace e with 0 in Hfar by ring end.
    rewrite sqrt_0 in Hfar. lra. }
  split; [exact Hne |].
  intro E. apply Hne. injection E as -> ->. reflexivity.
Qed.

(** The theorem at the two caps. *)
Lemma X5_witness :
  Forall (fun c => 0 < size c) [northCap; southCap] /\
  (Earth.lat northCap, Earth.lon northCap) <> (Earth.lat southCap, Earth.lon southCap).
Proof.
  assert (Hpos : Forall (fun c => 0 < size c) [northCap; southCap]).
  { repeat constructor; unfold northCap, southCap; simpl; lra. }
  assert (H0 : nth_error (filterContinents [northCap; southCap]) 0 = Some northCap)
    by (rewrite filter_caps; reflexivity).
  assert (H1 : nth_error (filterContinents [northCap; southCap]) 1 = Some southCap)
    by (rewrite filter_caps; reflexivity).
  split; [exact Hpos |].
  exact (proj2 (X5_filter_distinct_centres [northCap; southCap] 0 1
                  northCap southCap Hpos ltac:(discriminate) H0 H1)).
Defined.

(** ** More on the two conversions *)

Lemma length_scaled (v : Vector3) (s : R) :
  0 <= s -> HexagonUtils.length (Three.multiplyScalar v s) = HexagonUtils.length v * s.
Proof.
  intro Hs. unfold HexagonUtils.length, Three.multiplyScalar; simpl.
  replace (vx v * s * (vx v * s) + vy v * s * (vy v * s) + vz v * s * (vz v * s))
    with ((vx v * vx v + vy v * vy v + vz v * vz v) * (s * s)) by ring.
  rewrite sqrt_mult_alt by nra. rewrite sqrt_square by exact Hs. reflexivity.
Qed.

Lemma latLonToVector3_scaled (lat lon radius : R) :
  latLonToVector3 lat lon radius
  = Three.multiplyScalar (latLonToVector3 lat lon 1) radius.
Proof.
  unfold latLonToVector3, Three.multiplyScalar; simpl. f_equal; ring.
Qed.

Lemma length_latLonToVector3 (lat lon radius : R) :
  HexagonUtils.length (latLonToVector3 lat lon radius) = Rabs radius.
Proof.
  unfold HexagonUtils.length. rewrite projection_norm_sq.
  exact (sqrt_Rsqr_abs radius).
Qed.

(** X6: latLonToVector3(lat, lon, radius) lies on the sphere of radius
    |radius| around the origin, is radius times the point of the unit
    sphere, and is the same for lon and lon + 360; so the longitudes -180
    and 180 give the same point. *)
Theorem X6_projection_on_sphere (lat lon radius : R) :
  HexagonUtils.length (latLonToVector3 lat lon radius) = Rabs radius /\
  latLonToVector3 lat lon radius
  = Three.multiplyScalar (latLonToVector3 lat lon 1) radius /\
  latLonToVector3 lat (lon + 360) radius = latLonToVector3 lat lon radius /\
  latLonToVector3 lat (-180) radius = latLonToVector3 lat 180 radius.
Proof.
  assert (P : forall l, latLonToVector3 lat (l + 360) radius
                        = latLonToVector3 lat l radius).
  { intro l. unfold latLonToVector3.
    replace ((l + 360 + 180) * (PI / 180))
      with ((l + 180) * (PI / 180) + 2 * INR 1 * PI) by (simpl; lra).
    rewrite sin_period, cos_period. reflexivity. }
  split; [apply length_latLonToVector3 |].
  split; [apply latLonToVector3_scaled |].
  split; [apply P |].
  rewrite <- (P (-180)). f_equal. lra.
Qed.

Lemma atan2_range (y x : R) : - PI < MathJs.atan2 y x <= PI.
Proof.
  pose proof PI_RGT_0 as Hpi. unfold MathJs.atan2.
  pose proof (atan_bound (y / x)) as Hb.
  destruct (Rlt_dec 0 x) as [Hx | Hx]; [lra |].
  destruct (Rlt_dec x 0) as [Hx' | Hx'].
  - assert (Hi : / x < 0) by now apply Rinv_lt_0_compat.
    destruct (Rle_dec 0 y) as [Hy | Hy].
    + assert (Hq : y / x <= 0) by (unfold Rdiv; nra).
      assert (Ha : atan (y / x) <= 0).
      { destruct Hq as [Hq | Hq].
        - pose proof (atan_increasing _ _ Hq) as G. rewrite atan_0 in G. lra.
        - rewrite Hq, atan_0. lra. }
      lra.
    + assert (Hq : 0 < y / x) by (unfold Rdiv; nra).
      pose proof (atan_increasing _ _ Hq) as G. rewrite atan_0 in G. lra.
  - destruct (Rlt_dec 0 y); [lra |]. destruct (Rlt_dec y 0); lra.
Qed.

Lemma atan2_scaled (y x s : R) :
  0 < s -> MathJs.atan2 (y * s) (x * s) = MathJs.atan2 y x.
Proof.
  intro Hs. unfold MathJs.atan2.
  assert (Q : x <> 0 -> y * s / (x * s) = y / x) by (intro; field; lra).
  destruct (Rlt_dec 0 x) as [Hx | Hx].
  - destruct (Rlt_dec 0 (x * s)) as [_ | N]; [| exfalso; nra].
    rewrite Q by lra. reflexivity.
  - destruct (Rlt_dec 0 (x * s)) as [N | _]; [exfalso; nra |].
    destruct (Rlt_dec x 0) as [Hx' | Hx'].
    + destruct (Rlt_dec (x * s) 0) as [_ | N]; [| exfalso; nra].
      rewrite Q by lra.
      destruct (Rle_dec 0 y) as [Hy | Hy].
      * destruct (Rle_dec 0 (y * s)) as [_ | N]; [reflexivity | exfalso; nra].
      * destruct (Rle_dec 0 (y * s)) as [N | _]; [exfalso; nra | reflexivity].
    + destruct (Rlt_dec (x * s) 0) as [N | _]; [exfalso; nra |].
      destruct (Rlt_dec 0 y) as [Hy | Hy].
      * destruct (Rlt_dec 0 (y * s)) as [_ | N]; [reflexivity | exfalso; nra].
      * destruct (Rlt_dec 0 (y * s)) as [N | _]; [exfalso; nra |].
        destruct (Rlt_dec y 0) as [Hy' | Hy'].
        -- destruct (Rlt_dec (y * s) 0) as [_ | N]; [reflexivity | exfalso; nra].
        -- destruct (Rlt_dec (y * s) 0) as [N | _]; [exfalso; nra | reflexivity].
Qed.

Lemma rem_360_range (a : R) : 0 < a <= 360 -> 0 <= MathJs.rem a 360 < 360.
Proof.
  intros [Hl [Hu | Hu]].
  - rewrite rem_small; lra.
  - subst a. rewrite rem_self; lra.
Qed.

(** X7: for every vector that is not the origin, vector3ToLatLon returns a
    latitude in [-90, 90] and a longitude in [-180, 180). *)
Theorem X7_unproject_range (vector : Vector3) :
  0 < HexagonUtils.length vector ->
  -90 <= fst (vector3ToLatLon vector) <= 90 /\
  -180 <= snd (vector3ToLatLon vector) < 180.
Proof.
  intros _. pose proof PI_RGT_0 as Hpi. unfold vector3ToLatLon; simpl. split.
  - pose proof (acos_bound (vy vector / HexagonUtils.length vector)) as [Hl Hu].
    assert (Hq : 0 <= acos (vy vector / HexagonUtils.length vector) * 180 / PI <= 180).
    { assert (Hi : 0 < / PI) by now apply Rinv_0_lt_compat.
      assert (Hpp : PI * / PI = 1) by (apply Rinv_r; lra).
      unfold Rdiv. split; nra. }
    lra.
  - pose proof (atan2_range (vz vector) (- vx vector)) as [Hl Hu].
    assert (Hq : 0 < MathJs.atan2 (vz vector) (- vx vector) * 180 / PI + 180 <= 360).
    { assert (Hi : 0 < / PI) by now apply Rinv_0_lt_compat.
      assert (Hpp : PI * / PI = 1) by (apply Rinv_r; lra).
      unfold Rdiv. split; nra. }
    pose proof (rem_360_range _ Hq). lra.
Qed.

(** The theorem at the point (1, 0, 0). *)
Lemma X7_witness :
  0 < HexagonUtils.length (mkVector3 1 0 0) /\
  -90 <= fst (vector3ToLatLon (mkVector3 1 0 0)) <= 90.
Proof.
  assert (H : 0 < HexagonUtils.length (mkVector3 1 0 0)).
  { unfold HexagonUtils.length; simpl.
    replace (1 * 1 + 0 * 0 + 0 * 0) with 1 by ring. rewrite sqrt_1. lra. }
  split; [exact H |].
  exact (proj1 (X7_unproject_range (mkVector3 1 0 0) H)).
Defined.

(** X8: vector3ToLatLon depends on the direction of the vector only: a
    vector that is not the origin and its multiple by a positive number
    give the same latitude and longitude; so the round trip through
    latLonToVector3 is the same at every positive radius as at radius 1. *)
Theorem X8_unproject_scale_invariant (vector : Vector3) (s : R) :
  0 < HexagonUtils.length vector -> 0 < s ->
  vector3ToLatLon (Three.multiplyScalar vector s) = vector3ToLatLon vector /\
  forall lat lon : R,
    vector3ToLatLon (latLonToVector3 lat lon s)
    = vector3ToLatLon (latLonToVector3 lat lon 1).
Proof.
  intros Hv Hs.
  assert (P : forall v, 0 < HexagonUtils.length v ->
                        vector3ToLatLon (Three.multiplyScalar v s)
                        = vector3ToLatLon v).
  { intros v Hl. unfold vector3ToLatLon.
    rewrite length_scaled by lra.
    unfold Three.multiplyScalar; simpl.
    replace (vy v * s / (HexagonUtils.length v * s))
      with (vy v / HexagonUtils.length v) by (field; lra).
    replace (- (vx v * s)) with (- vx v * s) by ring.
    rewrite atan2_scaled by exact Hs. reflexivity. }
  split; [now apply P |].
  intros lat lon. rewrite latLonToVector3_scaled. apply P.
  rewrite length_projection. lra.
Qed.

(** The theorem at the point (1, 0, 0) and the factor 1.8 of the zoom. *)
Lemma X8_witness :
  0 < HexagonUtils.length (mkVector3 1 0 0) /\ 0 < 1.8 /\
  vector3ToLatLon (Three.multiplyScalar (mkVector3 1 0 0) 1.8)
  = vector3ToLatLon (mkVector3 1 0 0).
Proof.
  assert (H : 0 < HexagonUtils.length (mkVector3 1 0 0)).
  { unfold HexagonUtils.length; simpl.
    replace (1 * 1 + 0 * 0 + 0 * 0) with 1 by ring. rewrite sqrt_1. lra. }
  assert (Hs : 0 < 1.8) by lra.
  split; [exact H | split; [exact Hs |]].
  exact (proj1 (X8_unproject_scale_invariant (mkVector3 1 0 0) 1.8 H Hs)).
Defined.

(** ** More on the geodesic grid *)

Lemma latSteps_value (hexRadius : R) :
  hexRadius <> 0 -> latSteps hexRadius = Some (Int_part (/ hexRadius)).
Proof.
  intro H. unfold latSteps. rewrite div_nonzero by lra. simpl.
  unfold MathJs.floor. do 2 f_equal. field. exact H.
Qed.

Lemma generate_without_bands (resolution hexRadius : R) (n : Z) :
  latSteps hexRadius = Some n -> (n <= 0)%Z ->
  generateGeodesicHexagonGrid resolution hexRadius = Some [].
Proof.
  intros Hn Hle. unfold generateGeodesicHexagonGrid, bandIndices.
  rewrite Hn; simpl.
  destruct (Z.eq_dec n 0) as [-> | Hneg].
  - simpl. unfold bandLat. rewrite div_zero. reflexivity.
  - replace (Z.to_nat (n + 1)) with 0%nat by lia. reflexivity.
Qed.

(** X9: in exact arithmetic generateGeodesicHexagonGrid never returns a
    hexagon.  For hexRadius in [0, 1] a step count is a quotient by zero
    and there is no result; for a negative hexRadius and for a hexRadius
    above 1 the result is the empty list. *)
Theorem X9_geodesic_grid_never_populated (resolution hexRadius : R) :
  (0 <= hexRadius <= 1 ->
   generateGeodesicHexagonGrid resolution hexRadius = None) /\
  (hexRadius < 0 \/ 1 < hexRadius ->
   generateGeodesicHexagonGrid resolution hexRadius = Some []).
Proof.
  split.
  - intros [[Hpos | Hz] Hle].
    + apply (generate_first_band resolution hexRadius (Int_part (/ hexRadius))).
      * apply latSteps_value. lra.
      * assert (Hi : 1 <= / hexRadius).
        { rewrite <- Rinv_1. apply Rinv_le_contravar; lra. }
        pose proof (base_Int_part (/ hexRadius)) as [_ Hb].
        assert (Hz : IZR 0 < IZR (Int_part (/ hexRadius))) by lra.
        apply lt_IZR in Hz. lia.
    + subst hexRadius. unfold generateGeodesicHexagonGrid, latSteps.
      replace (0 * 180) with 0 by ring. rewrite div_zero. reflexivity.
  - intro H.
    apply (generate_without_bands resolution hexRadius (Int_part (/ hexRadius))).
    + apply latSteps_value. lra.
    + pose proof (base_Int_part (/ hexRadius)) as [Hb _].
      assert (Hi : / hexRadius < 1).
      { destruct H as [H | H].
        - assert (/ hexRadius < 0) by now apply Rinv_lt_0_compat. lra.
        - rewrite <- Rinv_1. apply Rinv_lt_contravar; lra. }
      apply Z.lt_succ_r, lt_IZR. rewrite succ_IZR. lra.
Qed.

(** The theorem at the hexRadius of the grid component, and at 2. *)
Lemma X9_witness :
  0 <= 0.08 <= 1 /\ generateGeodesicHexagonGrid 12 0.08 = None /\
  generateGeodesicHexagonGrid 12 2 = Some [].
Proof.
  assert (H : 0 <= 0.08 <= 1) by lra.
  assert (H2 : 2 < 0 \/ 1 < 2) by (right; lra).
  split; [exact H |].
  split.
  - exact (proj1 (X9_geodesic_grid_never_populated 12 0.08) H).
  - exact (proj2 (X9_geodesic_grid_never_populated 12 2) H2).
Defined.

Lemma hexagonCell_value (hexRadius : R) (i j : Z) (lat lon : R) :
  hexagonCell hexRadius i j lat lon
  = Some (mkHexagonData
            (i, j) (latLonToVector3 lat lon 1)
            (map (fun k => latLonToVector3 (vertexLat hexRadius lat k)
                                           (vertexLonValue hexRadius lat lon k) 1)
                 (seq 0 6))
            (latLonToVector3 lat lon 1) lat lon).
Proof.
  unfold hexagonCell.
  rewrite (sequence_map_total _ _ _ (hexagonVertex_value hexRadius lat lon)).
  reflexivity.
Qed.

Lemma rem_2_cases (i : Z) : (0 <= i)%Z -> Z.rem i 2 = 0%Z \/ Z.rem i 2 = 1%Z.
Proof.
  intro H. rewrite Z.rem_mod_nonneg by lia.
  pose proof (Z.mod_pos_bound i 2 ltac:(lia)). lia.
Qed.

(** X10: a band whose step count is a finite number n >= 1 (any band that
    is not at a pole) has exactly n hexagons; the hexagon of column j has
    the id (i, j), the latitude of the band and the longitude
    -180 + j * 360/n, plus 180/n in the rows of odd index, which lies in
    [-180, 180); it has six vertices, and its position and its centre are
    the projection of its latitude and longitude on the unit sphere. *)
Theorem X10_band_layout (hexRadius : R) (i : Z) (lat : R) (n : Z) (j : nat) :
  lonSteps hexRadius lat = Some n -> (1 <= n)%Z -> (0 <= i)%Z ->
  (j < Z.to_nat n)%nat ->
  exists hs h,
    band hexRadius i lat = Some hs /\
    List.length hs = Z.to_nat n /\
    nth_error hs j = Some h /\
    id h = (i, Z.of_nat j) /\
    HexagonUtils.lat h = lat /\
    HexagonUtils.lon h
    = -180 + INR j * (360 / IZR n) + IZR (Z.rem i 2) * (180 / IZR n) /\
    -180 <= HexagonUtils.lon h < 180 /\
    List.length (vertices h) = 6%nat /\
    position h = latLonToVector3 lat (HexagonUtils.lon h) 1 /\
    center h = position h.
Proof.
  intros Hn H1 Hi Hj. unfold band. rewrite Hn; simpl.
  destruct (n <=? 0)%Z eqn:E; [apply Z.leb_le in E; lia |].
  set (cell := fun j0 : nat =>
    mkHexagonData
      (i, Z.of_nat j0)
      (latLonToVector3 lat (-180 + INR j0 * (360 / IZR n)
                            + IZR (Z.rem i 2) * (360 / IZR n / 2)) 1)
      (map (fun k =>
              latLonToVector3
                (vertexLat hexRadius lat k)
                (vertexLonValue hexRadius lat
                   (-180 + INR j0 * (360 / IZR n)
                    + IZR (Z.rem i 2) * (360 / IZR n / 2)) k) 1)
           (seq 0 6))
      (latLonToVector3 lat (-180 + INR j0 * (360 / IZR n)
                            + IZR (Z.rem i 2) * (360 / IZR n / 2)) 1)
      lat
      (-180 + INR j0 * (360 / IZR n) + IZR (Z.rem i 2) * (360 / IZR n / 2))).
  rewrite (sequence_map_total _ cell)
    by (intro j0; apply hexagonCell_value).
  exists (map cell (seq 0 (Z.to_nat n))), (cell j).
  assert (Hnpos : 0 < IZR n) by (apply IZR_lt; lia).
  assert (Hjn : INR j + 1 <= IZR n).
  { rewrite <- (Z2Nat.id n) by lia. rewrite <- INR_IZR_INZ, <- S_INR.
    apply le_INR. lia. }
  assert (Hj0 : 0 <= INR j) by apply pos_INR.
  assert (Hinv : 0 < / IZR n) by now apply Rinv_0_lt_compat.
  assert (Hnn : IZR n * / IZR n = 1) by (apply Rinv_r; lra).
  split; [reflexivity |].
  split; [now rewrite length_map, length_seq |].
  split.
  { rewrite nth_error_map, nth_error_seq.
    destruct (Nat.ltb_spec j (Z.to_nat n)); [reflexivity | lia]. }
  split; [reflexivity |].
  split; [reflexivity |].
  split; [unfold cell; simpl; field; lra |].
  split.
  { unfold cell; simpl. unfold Rdiv.
    destruct (rem_2_cases i Hi) as [-> | ->]; split; nra. }
  split; [reflexivity |].
  split; reflexivity.
Qed.

Lemma lonSteps_equator : lonSteps 0.08 0 = Some 25%Z.
Proof.
  unfold lonSteps, lonStepsDivisor.
  replace (0 * PI / 180) with 0 by lra. rewrite cos_0.
  rewrite div_nonzero by lra. simpl. f_equal.
  apply Int_part_between. simpl. lra.
Qed.

(** The theorem at the equator band of the grid component: row 6 of 12,
    25 hexagons. *)
Lemma X10_witness :
  lonSteps 0.08 0 = Some 25%Z /\
  exists hs, band 0.08 6 0 = Some hs /\ List.length hs = 25%nat.
Proof.
  split; [exact lonSteps_equator |].
  destruct (X10_band_layout 0.08 6 0 25 0 lonSteps_equator
              ltac:(lia) ltac:(lia) ltac:(lia))
    as [hs [h [Hb [Hl _]]]].
  exists hs. split; [exact Hb | exact Hl].
Defined.

(** ** The snow loops *)

Lemma snowHexagons_value :
  snowHexagons
  = Some (snowRows [-180; -150; -120; -90; -60; -30; 0; 30; 60; 90; 120; 150]%Z
                   [70; 78]%Z 0.12
          ++ snowRows [-180; -160; -140; -120; -100; -80; -60; -40; -20; 0; 20;
                       40; 60; 80; 100; 120; 140; 160]%Z
                      [] 0.12
          ++ snowRows [-180; -165; -150; -135; -120; -105; -90; -75; -60; -45;
                       -30; -15; 0; 15; 30; 45; 60; 75; 90; 105; 120; 135; 150;
                       165]%Z
                      [-70; -75; -80]%Z 0.13).
Proof. reflexivity. Qed.

Lemma snowRows_Forall (P : Continent -> Prop) (lons lats : list Z) (sz : R) :
  (forall lon lat, In lon lons -> In lat lats ->
                   P (mkContinent (IZR lat) (IZR lon) sz "#FFFFFF")) ->
  Forall P (snowRows lons lats sz).
Proof.
  intro H. apply Forall_forall. intros c Hc. unfold snowRows in Hc.
  apply in_flat_map in Hc. destruct Hc as [lon [Hlon Hc]].
  apply in_map_iff in Hc. destruct Hc as [lat [<- Hlat]].
  now apply H.
Qed.

(** X11: the snow loops end and push 96 hexagons.  The second pair of
    loops, which starts at latitude -85 and runs while the latitude is at
    least -60, pushes nothing.  Every snow hexagon is at latitude 70 or 78,
    or at latitude -70, -75 or -80, has its longitude in [-180, 180), and
    has a colour that the classification takes for white. *)
Theorem X11_snow_hexagons :
  snowLoop 20 (-85) (fun lat => (lat >=? -60)%Z) (-6) 0.12 = Some [] /\
  exists snow,
    snowHexagons = Some snow /\
    List.length snow = 96%nat /\
    Forall (fun c =>
              (Earth.lat c = 70 \/ Earth.lat c = 78 \/ Earth.lat c = -70 \/
               Earth.lat c = -75 \/ Earth.lat c = -80) /\
              -180 <= Earth.lon c < 180 /\
              hexagonType (color c) = white)
           snow.
Proof.
  split; [reflexivity |].
  eexists. split; [exact snowHexagons_value |].
  split; [reflexivity |].
  apply Forall_app; split; [| apply Forall_app; split];
    apply snowRows_Forall; intros lon lat Hlon Hlat; simpl in Hlon, Hlat;
    (split; [| split; [| reflexivity]]);
    cbn [Earth.lat Earth.lon];
    repeat (destruct Hlat as [<- | Hlat]; [tauto |]); try contradiction;
    repeat (destruct Hlon as [<- | Hlon]; [lra |]); contradiction.
Qed.

(** ** The classification on colours of the form #RRGGBB *)

Lemma prefix_length (a b : string) :
  prefix a b = true -> (String.length a <= String.length b)%nat.
Proof.
  revert b. induction a as [| x a IH]; intros b H; simpl.
  - lia.
  - destruct b as [| y b]; simpl in *; [discriminate |].
    destruct (ascii_dec x y); [| discriminate].
    apply IH in H. lia.
Qed.

Lemma includes_String (x : ascii) (s n : string) :
  includes (String x s) n
  = if prefix n (String x s) then true else includes s n.
Proof. reflexivity. Qed.

Lemma includes_short (s n : string) :
  (String.length s < String.length n)%nat -> includes s n = false.
Proof.
  induction s as [| x s IH]; intro H.
  - destruct n; [simpl in H; lia | reflexivity].
  - rewrite includes_String.
    destruct (prefix n (String x s)) eqn:E.
    + apply prefix_length in E. simpl in E, H. lia.
    + apply IH. simpl in H. lia.
Qed.

Lemma prefix_same_length (n s : string) :
  String.length s = String.length n -> prefix n s = (n =? s)%string.
Proof.
  revert s. induction n as [| x n IH]; intros s H; destruct s as [| y s];
    simpl in *; try discriminate; try reflexivity.
  destruct (ascii_dec x y) as [-> | N].
  - rewrite Ascii.eqb_refl. apply IH. lia.
  - apply Ascii.eqb_neq in N. now rewrite N.
Qed.

Lemma includes_hash (s n : string) :
  String.length s = String.length n ->
  (forall rest, prefix n (String "#" rest) = false) ->
  includes (String "#" s) n = (n =? s)%string.
Proof.
  intros Hlen Hhash. rewrite includes_String, Hhash.
  destruct s as [| y s].
  - destruct n; [reflexivity | discriminate].
  - rewrite includes_String.
    rewrite (prefix_same_length n (String y s) Hlen).
    destruct (n =? String y s)%string; [reflexivity |].
    apply includes_short. simpl in Hlen. lia.
Qed.

Lemma hexagonType_hash (s : string) :
  String.length s = 6%nat ->
  hexagonType (String "#" s)
  = if ("FFFF00" =? s)%string then beach
    else if existsb (fun n => (n =? s)%string) greens then green
    else if existsb (fun n => (n =? s)%string) blues then water
    else if existsb (fun n => (n =? s)%string) tans then sand
    else white.
Proof.
  intro H. unfold hexagonType, isBeach, isGreen, isWater, isSand.
  rewrite !includes_hash by (try exact H; intro rest; reflexivity).
  cbn [existsb greens blues tans].
  rewrite !orb_false_r, !orb_assoc. reflexivity.
Qed.

Lemma existsb_eqb_In (s : string) (l : list string) :
  existsb (fun n => (n =? s)%string) l = true <-> In s l.
Proof.
  rewrite existsb_exists. split.
  - intros [n [Hn E]]. apply String.eqb_eq in E. now subst.
  - intro H. exists s. split; [exact H | apply String.eqb_refl].
Qed.

(** X12: on a colour made of # and six more characters the tests by
    inclusion are tests of equality: the class is beach exactly for
    #FFFF00, green exactly for the eight greens, water exactly for the two
    blues, sand exactly for the three tans, and white for every other
    colour. *)
Theorem X12_classification_of_hex_colours (s : string) :
  String.length s = 6%nat ->
  (hexagonType (String "#" s) = beach <-> s = "FFFF00"%string) /\
  (hexagonType (String "#" s) = green <-> In s greens) /\
  (hexagonType (String "#" s) = water <-> In s blues) /\
  (hexagonType (String "#" s) = sand <-> In s tans) /\
  (hexagonType (String "#" s) = white <->
   ~ In s ("FFFF00"%string :: greens ++ blues ++ tans)).
Proof.
  intro H. rewrite (hexagonType_hash s H).
  destruct (String.eqb_spec "FFFF00" s) as [<- | Nb].
  { repeat split; intros; try reflexivity; try discriminate;
      try (exfalso; simpl in *; intuition discriminate). }
  destruct (existsb (fun n => (n =? s)%string) greens) eqn:Eg.
  { apply existsb_eqb_In in Eg. pose proof Eg as Eg'. simpl in Eg'.
    repeat split; intros; try reflexivity; try discriminate; try assumption;
      try (exfalso; simpl in *;
           repeat (destruct Eg' as [<- | Eg']; [intuition discriminate |]);
           contradiction). }
  destruct (existsb (fun n => (n =? s)%string) blues) eqn:Ew.
  { apply existsb_eqb_In in Ew. pose proof Ew as Ew'. simpl in Ew'.
    repeat split; intros; try reflexivity; try discriminate; try assumption;
      try (exfalso; simpl in *;
           repeat (destruct Ew' as [<- | Ew']; [intuition discriminate |]);
           contradiction). }
  destruct (existsb (fun n => (n =? s)%string) tans) eqn:Es.
  { apply existsb_eqb_In in Es. pose proof Es as Es'. simpl in Es'.
    repeat split; intros; try reflexivity; try discriminate; try assumption;
      try (exfalso; simpl in *;
           repeat (destruct Es' as [<- | Es']; [intuition discriminate |]);
           contradiction). }
  assert (Ng : ~ In s greens)
    by (intro G; apply existsb_eqb_In in G; congruence).
  assert (Nw : ~ In s blues)
    by (intro G; apply existsb_eqb_In in G; congruence).
  assert (Ns : ~ In s tans)
    by (intro G; apply existsb_eqb_In in G; congruence).
  repeat split; intros; try reflexivity; try discriminate;
    try (exfalso; congruence); try contradiction.
  intros [G | G]; [congruence |].
  apply in_app_or in G. destruct G as [G | G]; [contradiction |].
  apply in_app_or in G. destruct G; contradiction.
Qed.

(** The theorem at the first colour of the catalog. *)
Lemma X12_witness :
  String.length "FFFF00" = 6%nat /\ hexagonType "#FFFF00" = beach.
Proof.
  split; [reflexivity |].
  exact (proj2 (proj1 (X12_classification_of_hex_colours "FFFF00" eq_refl)) eq_refl).
Defined.

(** ** The flat hexagon and its projection *)








(** X14: projectHexagonToSphere keeps the number of vertices; the centre
    and every vertex it returns lie on the sphere of radius |radius|; the
    point (x, y) of the plane goes to latitude 90 y and longitude 180 x,
    so the origin goes to (radius, 0, 0) and every point with y = 1 goes
    to the north pole (0, radius, 0). *)
Theorem X14_projected_hexagon
        (center2D : HexagonShapes.Vector2)
        (vertices2D : list HexagonShapes.Vector2) (radius : R) :
  let result := HexagonShapes.projectHexagonToSphere center2D vertices2D radius in
  List.length (snd result) = List.length vertices2D /\
  HexagonUtils.length (fst result) = Rabs radius /\
  Forall (fun v => HexagonUtils.length v = Rabs radius) (snd result) /\
  (forall k v2D,
      nth_error vertices2D k = Some v2D ->
      nth_error (snd result) k
      = Some (latLonToVector3 (HexagonShapes.py v2D * 90)
                              (HexagonShapes.px v2D * 180) radius)) /\
  fst (HexagonShapes.projectHexagonToSphere
         (HexagonShapes.mkVector2 0 0) vertices2D radius)
  = mkVector3 radius 0 0 /\
  forall x,
    fst (HexagonShapes.projectHexagonToSphere
           (HexagonShapes.mkVector2 x 1) vertices2D radius)
    = mkVector3 0 radius 0.
Proof.
  unfold HexagonShapes.projectHexagonToSphere; simpl.
  split; [apply length_map |].
  split; [apply length_latLonToVector3 |].
  split; [apply Forall_map, Forall_forall; intros v _;
          apply length_latLonToVector3 |].
  split; [intros k v2D H; rewrite nth_error_map, H; reflexivity |].
  split.
  - unfold latLonToVector3.
    replace ((90 - 0 * 90) * (PI / 180)) with (PI / 2) by lra.
    replace ((0 * 180 + 180) * (PI / 180)) with PI by lra.
    rewrite sin_PI2, cos_PI2, sin_PI, cos_PI. f_equal; ring.
  - intro x. unfold latLonToVector3.
    replace ((90 - 1 * 90) * (PI / 180)) with 0 by lra.
    rewrite sin_0, cos_0. f_equal; ring.
Qed.

(** The theorem at the flat hexagon of radius 0.05 around the origin: its
    first corner goes to latitude 0 and longitude 180 * 0.05. *)
Lemma X14_witness :
  nth_error (HexagonShapes.generateHexagonVertices
               (HexagonShapes.mkVector2 0 0) 0.05) 0
  = Some (HexagonShapes.mkVector2 (0 + 0.05 * cos (PI / 3 * INR 0))
                                  (0 + 0.05 * sin (PI / 3 * INR 0))) /\
  nth_error
    (snd (HexagonShapes.projectHexagonToSphere
            (HexagonShapes.mkVector2 0 0)
            (HexagonShapes.generateHexagonVertices
               (HexagonShapes.mkVector2 0 0) 0.05) 1)) 0
  = Some (latLonToVector3 ((0 + 0.05 * sin (PI / 3 * INR 0)) * 90)
                          ((0 + 0.05 * cos (PI / 3 * INR 0)) * 180) 1).
Proof.
  assert (H : nth_error (HexagonShapes.generateHexagonVertices
                           (HexagonShapes.mkVector2 0 0) 0.05) 0
              = Some (HexagonShapes.mkVector2
                        (0 + 0.05 * cos (PI / 3 * INR 0))
                        (0 + 0.05 * sin (PI / 3 * INR 0))))
    by reflexivity.
  split; [exact H |].
  exact (proj1 (proj2 (proj2 (proj2
           (X14_projected_hexagon
              (HexagonShapes.mkVector2 0 0)
              (HexagonShapes.generateHexagonVertices
                 (HexagonShapes.mkVector2 0 0) 0.05) 1)))) 0%nat _ H).
Defined.

(** ** The placement of a hexagon on the sphere *)

Lemma dot_self_nonneg (v : Vector3) : 0 <= Three.dot v v.
Proof. unfold Three.dot. nra. Qed.

Lemma length_sqrt_dot (v : Vector3) : HexagonUtils.length v = sqrt (Three.dot v v).
Proof. reflexivity. Qed.

Lemma length_sq (v : Vector3) :
  HexagonUtils.length v * HexagonUtils.length v = Three.dot v v.
Proof. rewrite length_sqrt_dot. apply sqrt_sqrt, dot_self_nonneg. Qed.

Lemma length_of_unit (v : Vector3) : Three.dot v v = 1 -> HexagonUtils.length v = 1.
Proof. intro H. rewrite length_sqrt_dot, H. exact sqrt_1. Qed.

Lemma normalize_of_unit (v : Vector3) : Three.dot v v = 1 -> Three.normalize v = v.
Proof.
  intro H. unfold Three.normalize. rewrite (length_of_unit v H).
  destruct (Req_dec_T 1 0) as [E | _]; [lra |].
  destruct v as [x y z]. unfold Three.divideScalar, Three.multiplyScalar; simpl.
  f_equal; field.
Qed.

Lemma normalize_value (v : Vector3) :
  0 < HexagonUtils.length v ->
  Three.normalize v = Three.multiplyScalar v (1 / HexagonUtils.length v).
Proof.
  intro H. unfold Three.normalize, Three.divideScalar.
  destruct (Req_dec_T (HexagonUtils.length v) 0) as [E | _]; [lra | reflexivity].
Qed.

Lemma normalize_unit (v : Vector3) :
  0 < HexagonUtils.length v ->
  Three.dot (Three.normalize v) (Three.normalize v) = 1.
Proof.
  intro H. rewrite (normalize_value v H).
  pose proof (length_sq v) as Hsq.
  unfold Three.dot, Three.multiplyScalar in *; simpl in *.
  set (L := HexagonUtils.length v) in *.
  transitivity ((vx v * vx v + vy v * vy v + vz v * vz v) * (1 / L) * (1 / L)).
  - ring.
  - rewrite <- Hsq. field. lra.
Qed.

Lemma normalize_zero (v : Vector3) :
  HexagonUtils.length v = 0 -> HexagonUtils.length (Three.normalize v) = 0.
Proof.
  intro H. unfold Three.normalize. rewrite H.
  destruct (Req_dec_T 0 0) as [_ | N]; [| exfalso; apply N; reflexivity].
  unfold Three.divideScalar. rewrite length_scaled by lra. rewrite H. ring.
Qed.

Lemma length_zero_dot (v : Vector3) : HexagonUtils.length v = 0 -> Three.dot v v = 0.
Proof. intro H. rewrite <- length_sq, H. ring. Qed.

Lemma length_pos_or_zero (v : Vector3) :
  HexagonUtils.length v = 0 \/ 0 < HexagonUtils.length v.
Proof.
  pose proof (sqrt_pos (Three.dot v v)) as H. rewrite <- length_sqrt_dot in H.
  lra.
Qed.

Lemma cross_dot_left (a b : Vector3) : Three.dot (Three.cross a b) a = 0.
Proof. unfold Three.dot, Three.cross; simpl. ring. Qed.

Lemma cross_dot_right (a b : Vector3) : Three.dot (Three.cross a b) b = 0.
Proof. unfold Three.dot, Three.cross; simpl. ring. Qed.

Lemma cross_norm (a b : Vector3) :
  Three.dot (Three.cross a b) (Three.cross a b)
  = Three.dot a a * Three.dot b b - Three.dot a b * Three.dot a b.
Proof. unfold Three.dot, Three.cross; simpl. ring. Qed.

Lemma dot_sym (a b : Vector3) : Three.dot a b = Three.dot b a.
Proof. unfold Three.dot. ring. Qed.

Lemma dot_scaled_left (a b : Vector3) (s : R) :
  Three.dot (Three.multiplyScalar a s) b = s * Three.dot a b.
Proof. unfold Three.dot, Three.multiplyScalar; simpl. ring. Qed.

(** The vector chosen for [right] is a unit vector orthogonal to [up]. *)
Lemma right_unit_orthogonal (up : Vector3) :
  Three.dot up up = 1 ->
  let right0 := Three.normalize (Three.cross (mkVector3 1 0 0) up) in
  let right :=
    if MathJs.ltb (HexagonUtils.length right0) 0.1
    then Three.normalize (Three.cross (mkVector3 0 1 0) up)
    else right0 in
  Three.dot right right = 1 /\ Three.dot right up = 0.
Proof.
  intros Hu right0 right.
  destruct (length_pos_or_zero (Three.cross (mkVector3 1 0 0) up)) as [Hz | Hp].
  - assert (Hr0 : HexagonUtils.length right0 = 0) by now apply normalize_zero.
    assert (Hsel : right = Three.normalize (Three.cross (mkVector3 0 1 0) up)).
    { unfold right. rewrite Hr0.
      destruct (MathJs.ltb 0 0.1) eqn:E; [reflexivity |].
      apply ltb_false in E. lra. }
    apply length_zero_dot in Hz. rewrite cross_norm in Hz.
    assert (Hc : Three.dot (Three.cross (mkVector3 0 1 0) up)
                           (Three.cross (mkVector3 0 1 0) up) = 1).
    { rewrite cross_norm. unfold Three.dot in *; simpl in *. nra. }
    rewrite Hsel, (normalize_of_unit _ Hc).
    split; [exact Hc | apply cross_dot_right].
  - assert (Hr0 : Three.dot right0 right0 = 1) by now apply normalize_unit.
    assert (Hsel : right = right0).
    { unfold right. rewrite (length_of_unit _ Hr0).
      destruct (MathJs.ltb 1 0.1) eqn:E; [| reflexivity].
      apply ltb_true in E. lra. }
    rewrite Hsel. split; [exact Hr0 |].
    unfold right0. rewrite (normalize_value _ Hp), dot_scaled_left, cross_dot_right.
    ring.
Qed.

Lemma surfaceBasis_orthonormal (position : Vector3) :
  0 < HexagonUtils.length position ->
  let '(r, f, u) := Placement.surfaceBasis position in
  u = Three.multiplyScalar position (1 / HexagonUtils.length position) /\
  Three.dot r r = 1 /\ Three.dot f f = 1 /\ Three.dot u u = 1 /\
  Three.dot r f = 0 /\ Three.dot r u = 0 /\ Three.dot f u = 0 /\
  Three.cross r f = u.
Proof.
  intro Hp. unfold Placement.surfaceBasis.
  set (up := Three.normalize position).
  assert (Hu : Three.dot up up = 1) by now apply normalize_unit.
  destruct (right_unit_orthogonal up Hu) as [Hr Hru].
  set (right := if MathJs.ltb _ 0.1 then _ else _) in *.
  assert (Hf : Three.dot (Three.cross up right) (Three.cross up right) = 1).
  { rewrite cross_norm, Hu, Hr, (dot_sym up right), Hru. ring. }
  rewrite (normalize_of_unit _ Hf).
  split; [now apply normalize_value |].
  split; [exact Hr |]. split; [exact Hf |]. split; [exact Hu |].
  split; [rewrite dot_sym; apply cross_dot_right |].
  split; [exact Hru |].
  split; [apply cross_dot_left |].
  clear Hf. destruct up as [ux uy uz], right as [rx ry rz].
  unfold Three.cross, Three.dot in *; simpl in *.
  f_equal.
  - transitivity (ux * (rx * rx + ry * ry + rz * rz)
                  - rx * (rx * ux + ry * uy + rz * uz));
      [ring | rewrite Hr, Hru; ring].
  - transitivity (uy * (rx * rx + ry * ry + rz * rz)
                  - ry * (rx * ux + ry * uy + rz * uz));
      [ring | rewrite Hr, Hru; ring].
  - transitivity (uz * (rx * rx + ry * ry + rz * rz)
                  - rz * (rx * ux + ry * uy + rz * uz));
      [ring | rewrite Hr, Hru; ring].
Qed.

(** X15: the rotation that aligns a hexagon with the sphere surface is a
    rotation indeed: wherever the hexagon is placed, away from the origin,
    the three columns given to makeBasis are unit vectors, orthogonal to
    each other and right-handed, and the third is the direction from the
    origin to the hexagon; so the hexagon lies in the tangent plane.  This
    holds also where the first choice of the first column vanishes and the
    fallback is taken. *)
Theorem X15_surface_basis_is_rotation (position : Vector3) :
  0 < HexagonUtils.length position ->
  let '(r, f, u) := Placement.surfaceBasis position in
  u = Three.multiplyScalar position (1 / HexagonUtils.length position) /\
  Three.dot r r = 1 /\ Three.dot f f = 1 /\ Three.dot u u = 1 /\
  Three.dot r f = 0 /\ Three.dot r u = 0 /\ Three.dot f u = 0 /\
  Three.cross r f = u.
Proof. exact (surfaceBasis_orthonormal position). Qed.

(** The theorem at the point (1, 0, 0), where the fallback is taken. *)
Lemma X15_witness :
  0 < HexagonUtils.length (mkVector3 1 0 0) /\
  let '(r, f, u) := Placement.surfaceBasis (mkVector3 1 0 0) in
  Three.cross r f = u.
Proof.
  assert (H : 0 < HexagonUtils.length (mkVector3 1 0 0)).
  { unfold HexagonUtils.length; simpl.
    replace (1 * 1 + 0 * 0 + 0 * 0) with 1 by ring. rewrite sqrt_1. lra. }
  split; [exact H |].
  pose proof (X15_surface_basis_is_rotation (mkVector3 1 0 0) H) as G.
  destruct (Placement.surfaceBasis (mkVector3 1 0 0)) as [[right forward] up].
  exact (proj2 (proj2 (proj2 (proj2 (proj2 (proj2 (proj2 G))))))).
Defined.

(** X16: a cartoon continent is placed at distance 1.001 from the origin,
    above the point of the unit sphere at its latitude and longitude, and
    the third column of its basis is that point of the unit sphere; a
    hexagon of the grid is placed at 1.001 times its centre. *)
Theorem X16_placement_above_surface (lat lon : R) :
  let '(position, (r, f, u)) :=
    Placement.cartoonContinentPlacement lat lon in
  HexagonUtils.length position = 1.001 /\
  position = Three.multiplyScalar (latLonToVector3 lat lon 1) 1.001 /\
  u = latLonToVector3 lat lon 1 /\
  Three.dot r u = 0 /\ Three.dot f u = 0 /\
  fst (Placement.hexagonPlacement (latLonToVector3 lat lon 1)) = position.
Proof.
  unfold Placement.cartoonContinentPlacement, Placement.hexagonPlacement.
  assert (Hl : HexagonUtils.length (latLonToVector3 lat lon 1.001) = 1.001)
    by (rewrite length_latLonToVector3; apply Rabs_pos_eq; lra).
  assert (Hp : 0 < HexagonUtils.length (latLonToVector3 lat lon 1.001)) by lra.
  pose proof (surfaceBasis_orthonormal _ Hp) as G.
  destruct (Placement.surfaceBasis (latLonToVector3 lat lon 1.001))
    as [[right forward] up].
  destruct G as (Hup & _ & _ & _ & _ & Hru & Hfu & _).
  split; [exact Hl |].
  split; [apply latLonToVector3_scaled |].
  split.
  { rewrite Hup, Hl, (latLonToVector3_scaled lat lon 1.001).
    destruct (latLonToVector3 lat lon 1) as [x y z].
    unfold Three.multiplyScalar; cbn [vx vy vz]. f_equal; lra. }
  split; [exact Hru |]. split; [exact Hfu |].
  simpl. symmetry. apply latLonToVector3_scaled.
Qed.

(** ** The camera animation *)

Lemma distanceTo_lerp (p t : Vector3) (alpha : R) :
  alpha <= 1 ->
  distanceTo (Three.lerp p t alpha) t = (1 - alpha) * distanceTo p t.
Proof.
  intro H. unfold distanceTo, Three.lerp; simpl.
  set (d := (vx p - vx t) * (vx p - vx t) + (vy p - vy t) * (vy p - vy t)
            + (vz p - vz t) * (vz p - vz t)).
  replace ((vx p + (vx t - vx p) * alpha - vx t)
           * (vx p + (vx t - vx p) * alpha - vx t)
           + (vy p + (vy t - vy p) * alpha - vy t)
             * (vy p + (vy t - vy p) * alpha - vy t)
           + (vz p + (vz t - vz p) * alpha - vz t)
             * (vz p + (vz t - vz p) * alpha - vz t))
    with ((1 - alpha) * (1 - alpha) * d) by (unfold d; ring).
  rewrite sqrt_mult_alt by nra. rewrite sqrt_square by lra. reflexivity.
Qed.

Lemma lerp_from_origin (t : Vector3) (alpha : R) :
  Three.lerp (mkVector3 0 0 0) t alpha = Three.multiplyScalar t alpha.
Proof. unfold Three.lerp, Three.multiplyScalar; simpl. f_equal; ring. Qed.

Lemma frame_zooming (s : ZoomView.ZoomState) :
  ZoomView.isZooming s = true ->
  ZoomView.targetPosition (ZoomView.frame s) = ZoomView.targetPosition s /\
  ZoomView.targetLookAt (ZoomView.frame s) = ZoomView.targetLookAt s /\
  distanceTo (ZoomView.cameraPosition (ZoomView.frame s)) (ZoomView.targetPosition s)
  = 0.92 * distanceTo (ZoomView.cameraPosition s) (ZoomView.targetPosition s) /\
  ZoomView.cameraLookAt (ZoomView.frame s)
  = Three.multiplyScalar (ZoomView.targetLookAt s) 0.08 /\
  (ZoomView.isZooming (ZoomView.frame s) = false <->
   0.92 * distanceTo (ZoomView.cameraPosition s) (ZoomView.targetPosition s) < 0.05).
Proof.
  intro H. unfold ZoomView.frame. rewrite H; simpl.
  rewrite distanceTo_lerp by lra.
  replace (1 - 0.08) with 0.92 by lra.
  split; [reflexivity |]. split; [reflexivity |]. split; [reflexivity |].
  split; [apply lerp_from_origin |].
  rewrite negb_false_iff. apply ltb_true.
Qed.

Lemma frame_idle (s : ZoomView.ZoomState) :
  ZoomView.isZooming s = false -> ZoomView.frame s = s.
Proof. intro H. unfold ZoomView.frame. now rewrite H. Qed.

Lemma frames_idle (n : nat) (s : ZoomView.ZoomState) :
  ZoomView.isZooming s = false -> ZoomView.frames n s = s.
Proof.
  intro H. induction n as [| n IH]; simpl; [reflexivity |].
  now rewrite frame_idle.
Qed.

Lemma frames_add (n m : nat) (s : ZoomView.ZoomState) :
  ZoomView.frames (n + m) s = ZoomView.frames m (ZoomView.frames n s).
Proof.
  revert s. induction n as [| n IH]; intro s; simpl; [reflexivity | apply IH].
Qed.

(** X17: while the animation runs, a frame leaves the two targets as they
    are and multiplies the distance from the camera to its target by 0.92;
    the animation stops at the first frame that brings this distance
    under 0.05.  The point the camera looks at is the same at every frame:
    0.08 times the look-at target, not the target itself.  When the
    animation does not run, a frame changes nothing. *)
Theorem X17_zoom_frame (s : ZoomView.ZoomState) :
  (ZoomView.isZooming s = true ->
   ZoomView.targetPosition (ZoomView.frame s) = ZoomView.targetPosition s /\
   ZoomView.targetLookAt (ZoomView.frame s) = ZoomView.targetLookAt s /\
   distanceTo (ZoomView.cameraPosition (ZoomView.frame s))
              (ZoomView.targetPosition s)
   = 0.92 * distanceTo (ZoomView.cameraPosition s) (ZoomView.targetPosition s) /\
   ZoomView.cameraLookAt (ZoomView.frame s)
   = Three.multiplyScalar (ZoomView.targetLookAt s) 0.08 /\
   (ZoomView.isZooming (ZoomView.frame s) = false <->
    0.92 * distanceTo (ZoomView.cameraPosition s) (ZoomView.targetPosition s)
    < 0.05)) /\
  (ZoomView.isZooming s = false -> ZoomView.frame s = s).
Proof.
  split; [apply frame_zooming | apply frame_idle].
Qed.

Lemma zoom_stops_within (N : nat) (s : ZoomView.ZoomState) :
  ZoomView.isZooming s = true ->
  0.92 ^ N * distanceTo (ZoomView.cameraPosition s) (ZoomView.targetPosition s)
  < 0.05 ->
  exists n,
    (1 <= n <= S N)%nat /\
    ZoomView.isZooming (ZoomView.frames n s) = false /\
    ZoomView.targetPosition (ZoomView.frames n s) = ZoomView.targetPosition s /\
    ZoomView.targetLookAt (ZoomView.frames n s) = ZoomView.targetLookAt s /\
    distanceTo (ZoomView.cameraPosition (ZoomView.frames n s))
               (ZoomView.targetPosition s) < 0.05 /\
    ZoomView.cameraLookAt (ZoomView.frames n s)
    = Three.multiplyScalar (ZoomView.targetLookAt s) 0.08.
Proof.
  revert s. induction N as [| N IH]; intros s Hz Hd.
  - destruct (frame_zooming s Hz) as (Ht & Hl & Hdist & Hlook & Hstop).
    pose proof (sqrt_pos ((vx (ZoomView.cameraPosition s) - vx (ZoomView.targetPosition s))
                          * (vx (ZoomView.cameraPosition s) - vx (ZoomView.targetPosition s))
                          + (vy (ZoomView.cameraPosition s) - vy (ZoomView.targetPosition s))
                            * (vy (ZoomView.cameraPosition s) - vy (ZoomView.targetPosition s))
                          + (vz (ZoomView.cameraPosition s) - vz (ZoomView.targetPosition s))
                            * (vz (ZoomView.cameraPosition s) - vz (ZoomView.targetPosition s))))
      as Hnn.
    fold (distanceTo (ZoomView.cameraPosition s) (ZoomView.targetPosition s)) in Hnn.
    simpl in Hd.
    exists 1%nat. simpl.
    split; [lia |].
    split; [apply Hstop; lra |].
    split; [exact Ht |]. split; [exact Hl |].
    split; [rewrite Hdist; lra | exact Hlook].
  - destruct (frame_zooming s Hz) as (Ht & Hl & Hdist & Hlook & Hstop).
    destruct (ZoomView.isZooming (ZoomView.frame s)) eqn:E.
    + destruct (IH (ZoomView.frame s) E) as (n & Hn & H1 & H2 & H3 & H4 & H5).
      { rewrite Ht, Hdist. simpl in Hd. lra. }
      exists (S n). simpl.
      split; [lia |].
      split; [exact H1 |].
      split; [now rewrite H2 |]. split; [now rewrite H3 |].
      split; [now rewrite <- Ht | now rewrite H5, Hl].
    + exists 1%nat. simpl.
      split; [lia |].
      split; [exact E |].
      split; [exact Ht |]. split; [exact Hl |].
      split; [rewrite Hdist; now apply Hstop | exact Hlook].
Qed.

Lemma zoom_stops (s : ZoomView.ZoomState) :
  ZoomView.isZooming s = true ->
  exists n,
    (1 <= n)%nat /\
    ZoomView.isZooming (ZoomView.frames n s) = false /\
    ZoomView.targetPosition (ZoomView.frames n s) = ZoomView.targetPosition s /\
    distanceTo (ZoomView.cameraPosition (ZoomView.frames n s))
               (ZoomView.targetPosition s) < 0.05 /\
    ZoomView.cameraLookAt (ZoomView.frames n s)
    = Three.multiplyScalar (ZoomView.targetLookAt s) 0.08 /\
    forall m, ZoomView.frames (n + m) s = ZoomView.frames n s.
Proof.
  intro Hz.
  set (d := distanceTo (ZoomView.cameraPosition s) (ZoomView.targetPosition s)).
  assert (Hd : 0 <= d) by apply sqrt_pos.
  assert (Hx : Rabs 0.92 < 1) by (rewrite Rabs_pos_eq; lra).
  assert (Hy : 0 < 0.05 / (d + 1)) by (apply Rdiv_lt_0_compat; lra).
  destruct (pow_lt_1_zero 0.92 Hx (0.05 / (d + 1)) Hy) as [N HN].
  specialize (HN N (Nat.le_refl N)).
  assert (Hpow : 0 <= 0.92 ^ N) by (apply pow_le; lra).
  rewrite Rabs_pos_eq in HN by exact Hpow.
  assert (Hlt : 0.92 ^ N * d < 0.05).
  { assert (G : 0.92 ^ N * (d + 1) < 0.05).
    { apply Rmult_lt_reg_r with (/ (d + 1)).
      - apply Rinv_0_lt_compat. lra.
      - rewrite Rmult_assoc, Rinv_r by lra. rewrite Rmult_1_r. exact HN. }
    nra. }
  destruct (zoom_stops_within N s Hz Hlt) as (n & Hn & H1 & H2 & _ & H4 & H5).
  exists n.
  split; [lia |]. split; [exact H1 |]. split; [exact H2 |].
  split; [exact H4 |]. split; [exact H5 |].
  intro m. rewrite frames_add. now apply frames_idle.
Qed.

(** X18: after every change of the selection the camera animation ends:
    some number of frames later it has stopped, with the camera within
    0.05 of its target, and it stays there at all later frames.  The
    target is at distance 1.8 from the origin, 1.8 times the point of the
    unit sphere of the selected hexagon, and (0, 0, 3) when the selection
    is cleared.  The change of the selection itself does not move the
    camera. *)
Theorem X18_zoom_ends
        (selectedHexagon : option ZoomView.SelectedHexagon)
        (s0 : ZoomView.ZoomState) :
  let s := ZoomView.onSelectionChange selectedHexagon s0 in
  ZoomView.cameraPosition s = ZoomView.cameraPosition s0 /\
  ZoomView.targetPosition s
  = match selectedHexagon with
    | Some h =>
        Three.multiplyScalar
          (latLonToVector3 (ZoomView.selLat h) (ZoomView.selLon h) 1) 1.8
    | None => mkVector3 0 0 3
    end /\
  (selectedHexagon <> None ->
   HexagonUtils.length (ZoomView.targetPosition s) = 1.8) /\
  exists n,
    (1 <= n)%nat /\
    ZoomView.isZooming (ZoomView.frames n s) = false /\
    distanceTo (ZoomView.cameraPosition (ZoomView.frames n s))
               (ZoomView.targetPosition s) < 0.05 /\
    forall m, ZoomView.frames (n + m) s = ZoomView.frames n s.
Proof.
  intro s.
  assert (Hz : ZoomView.isZooming s = true)
    by (unfold s; destruct selectedHexagon; reflexivity).
  split; [unfold s; destruct selectedHexagon; reflexivity |].
  split; [unfold s; destruct selectedHexagon; reflexivity |].
  split.
  { intro Hsel. unfold s. destruct selectedHexagon as [h |]; [| contradiction].
    simpl. rewrite length_scaled by lra. rewrite length_projection. lra. }
  destruct (zoom_stops s Hz) as (n & Hn & H1 & _ & H4 & _ & Hstay).
  exists n. split; [exact Hn |]. split; [exact H1 |].
  split; [exact H4 | exact Hstay].
Qed.

(** The theorem when the selection is cleared with the camera at rest: the
    distance is 0 and the first frame stops the animation. *)
Lemma X17_witness :
  ZoomView.isZooming (ZoomView.onSelectionChange None initialZoomState) = true /\
  ZoomView.isZooming
    (ZoomView.frame (ZoomView.onSelectionChange None initialZoomState)) = false.
Proof.
  assert (H : ZoomView.isZooming
                (ZoomView.onSelectionChange None initialZoomState) = true)
    by reflexivity.
  split; [exact H |].
  destruct (proj1 (X17_zoom_frame
                     (ZoomView.onSelectionChange None initialZoomState)) H)
    as (_ & _ & _ & _ & Hstop).
  apply Hstop. simpl. unfold distanceTo; simpl.
  replace ((0 - 0) * (0 - 0) + (0 - 0) * (0 - 0) + (3 - 3) * (3 - 3)) with 0 by ring.
  rewrite sqrt_0. lra.
Defined.

(** The theorem at a click on the first entry of the catalog. *)
Lemma X18_witness :
  Some (ZoomView.mkSelectedHexagon 42 (-70) beach "#FFFF00") <> None /\
  HexagonUtils.length
    (ZoomView.targetPosition
       (ZoomView.onSelectionChange
          (Some (ZoomView.mkSelectedHexagon 42 (-70) beach "#FFFF00"))
          initialZoomState)) = 1.8.
Proof.
  assert (H : Some (ZoomView.mkSelectedHexagon 42 (-70) beach "#FFFF00") <> None)
    by discriminate.
  split; [exact H |].
  exact (proj1 (proj2 (proj2
           (X18_zoom_ends
              (Some (ZoomView.mkSelectedHexagon 42 (-70) beach "#FFFF00"))
              initialZoomState))) H).
Defined.

(** ** The scale animation of a hexagon *)

Lemma hexagonScaleFrames_component (n : nat) (isHovered isSelected : bool)
      (scale : Vector3) :
  let target := if isHovered || isSelected then 1.15 else 1.0 in
  vx (hexagonScaleFrames n isHovered isSelected scale)
  = target + 0.9 ^ n * (vx scale - target) /\
  vy (hexagonScaleFrames n isHovered isSelected scale)
  = target + 0.9 ^ n * (vy scale - target) /\
  vz (hexagonScaleFrames n isHovered isSelected scale)
  = target + 0.9 ^ n * (vz scale - target).
Proof.
  intro target. revert scale.
  induction n as [| n IH]; intro scale.
  - simpl. repeat split; ring.
  - cbn [hexagonScaleFrames].
    destruct (IH (Placement.hexagonScaleFrame isHovered isSelected scale))
      as (Hx & Hy & Hz).
    rewrite Hx, Hy, Hz.
    unfold Placement.hexagonScaleFrame, Three.lerp. cbn [vx vy vz].
    fold target. simpl pow. repeat split; lra.
Qed.

(** X19: after n frames with the same hover and selection flags, each
    component of the scale of a hexagon is target + 0.9^n (start - target),
    where the target is 1.15 when the hexagon is hovered or selected and 1
    otherwise: the scale moves towards the target, by a tenth of what is
    left at each frame, and never passes it. *)
Theorem X19_hexagon_scale_animation
        (n : nat) (isHovered isSelected : bool) (scale : Vector3) :
  let target := if isHovered || isSelected then 1.15 else 1.0 in
  vx (hexagonScaleFrames n isHovered isSelected scale)
  = target + 0.9 ^ n * (vx scale - target) /\
  vy (hexagonScaleFrames n isHovered isSelected scale)
  = target + 0.9 ^ n * (vy scale - target) /\
  vz (hexagonScaleFrames n isHovered isSelected scale)
  = target + 0.9 ^ n * (vz scale - target) /\
  0 < 0.9 ^ n <= 1.
Proof.
  intro target.
  destruct (hexagonScaleFrames_component n isHovered isSelected scale)
    as (Hx & Hy & Hz).
  split; [exact Hx |]. split; [exact Hy |]. split; [exact Hz |].
  split.
  - apply pow_lt. lra.
  - rewrite <- (pow1 n). apply pow_incr. lra.
Qed.

(** ** The first grid *)

Lemma forLoopR_diverges (fuel : nat) (bound step v : R) :
  step <= 0 -> v <= bound ->
  HexagonShapes.forLoopR fuel bound step v = None.
Proof.
  intro Hs. revert v. induction fuel as [| fuel IH]; intros v Hv; simpl;
    destruct (Rle_dec v bound) as [_ | N]; try lra; try reflexivity.
  rewrite IH by lra. reflexivity.
Qed.

Lemma forLoopR_values (bound step : R) (N : nat) :
  forall (fuel : nat) (v : R),
    (N <= fuel)%nat ->
    (forall k, (k < N)%nat -> v + INR k * step <= bound) ->
    bound < v + INR N * step ->
    HexagonShapes.forLoopR fuel bound step v
    = Some (map (fun k => v + INR k * step) (seq 0 N)).
Proof.
  induction N as [| N IH]; intros fuel v Hf Hin Hout.
  - simpl in Hout. destruct fuel; simpl;
      destruct (Rle_dec v bound); try lra; reflexivity.
  - destruct fuel as [| fuel]; [lia |].
    cbn [HexagonShapes.forLoopR].
    assert (H0 : v <= bound).
    { specialize (Hin 0%nat ltac:(lia)). simpl in Hin. lra. }
    destruct (Rle_dec v bound) as [_ | N0]; [| lra].
    rewrite (IH fuel (v + step)).
    + cbn [bind seq map]. do 2 f_equal.
      * simpl. ring.
      * rewrite <- seq_shift, map_map. apply map_ext.
        intro k. rewrite S_INR. ring.
    + lia.
    + intros k Hk. specialize (Hin (S k) ltac:(lia)).
      rewrite S_INR in Hin. lra.
    + rewrite S_INR in Hout. lra.
Qed.

Lemma forLoopR_count (fuel : nat) (start span step : R) :
  0 < step -> 0 <= span -> (loopCount span step <= fuel)%nat ->
  HexagonShapes.forLoopR fuel (start + span) step start
  = Some (map (fun k => start + INR k * step) (seq 0 (loopCount span step))).
Proof.
  intros Hs Hspan Hf.
  assert (Hq : 0 <= span / step) by (apply Rmult_le_pos; [lra |
    apply Rlt_le, Rinv_0_lt_compat; lra]).
  pose proof (base_Int_part (span / step)) as [Hlo Hhi].
  assert (Hz : (0 <= Int_part (span / step))%Z).
  { apply le_IZR. apply Rnot_lt_le. intro Hneg.
    assert (IZR (Int_part (span / step)) <= -1).
    { change (-1) with (IZR (-1)). apply IZR_le.
      apply lt_IZR in Hneg. lia. }
    lra. }
  assert (Hc : INR (loopCount span step) = IZR (Int_part (span / step)) + 1).
  { unfold loopCount. rewrite S_INR, INR_IZR_INZ, Z2Nat.id by exact Hz.
    reflexivity. }
  assert (Hstep : span / step * step = span) by (field; lra).
  apply forLoopR_values.
  - exact Hf.
  - intros k Hk.
    assert (Hk' : INR k <= IZR (Int_part (span / step))).
    { assert (Hkn : (k <= Z.to_nat (Int_part (span / step)))%nat)
        by (unfold loopCount in Hk; lia).
      apply le_INR in Hkn.
      rewrite (INR_IZR_INZ (Z.to_nat (Int_part (span / step)))), Z2Nat.id
        in Hkn by exact Hz.
      exact Hkn. }
    assert (INR k * step <= span / step * step) by (apply Rmult_le_compat_r; lra).
    lra.
  - rewrite Hc.
    assert (span / step * step < (IZR (Int_part (span / step)) + 1) * step)
      by (apply Rmult_lt_compat_r; lra).
    lra.
Qed.

(** X20: with a hexRadius that is zero or negative the steps of the two
    loops of generateHexagonGrid are zero or negative, the counters never
    pass their bounds, and the function does not return, whatever the
    number of iterations allowed. *)
Theorem X20_first_grid_diverges (fuel : nat) (subdivisions hexRadius : R) :
  hexRadius <= 0 ->
  HexagonShapes.generateHexagonGrid fuel subdivisions hexRadius = None /\
  HexagonShapes.gridRow fuel hexRadius (-90) = None.
Proof.
  intro H. unfold HexagonShapes.generateHexagonGrid, HexagonShapes.gridRow.
  rewrite !forLoopR_diverges by lra. split; reflexivity.
Qed.

(** The theorem at hexRadius 0. *)
Lemma X20_witness :
  0 <= 0 /\ HexagonShapes.generateHexagonGrid 1000 20 0 = None.
Proof.
  assert (H : 0 <= 0) by lra.
  split; [exact H |].
  exact (proj1 (X20_first_grid_diverges 1000 20 0 H)).
Defined.

Lemma loopCount_spec (span step : R) (k : nat) :
  0 < step -> 0 <= span -> (k < loopCount span step)%nat ->
  INR k * step <= span.
Proof.
  intros Hs Hspan Hk.
  assert (Hq : 0 <= span / step) by (apply Rmult_le_pos; [lra |
    apply Rlt_le, Rinv_0_lt_compat; lra]).
  pose proof (base_Int_part (span / step)) as [Hlo Hhi].
  assert (Hz : (0 <= Int_part (span / step))%Z).
  { apply le_IZR. apply Rnot_lt_le. intro Hneg.
    assert (IZR (Int_part (span / step)) <= -1).
    { change (-1) with (IZR (-1)). apply IZR_le.
      apply lt_IZR in Hneg. lia. }
    lra. }
  assert (Hkn : (k <= Z.to_nat (Int_part (span / step)))%nat)
    by (unfold loopCount in Hk; lia).
  apply le_INR in Hkn.
  rewrite (INR_IZR_INZ (Z.to_nat (Int_part (span / step)))), Z2Nat.id
    in Hkn by exact Hz.
  assert (Hstep : span / step * step = span) by (field; lra).
  assert (INR k * step <= span / step * step) by (apply Rmult_le_compat_r; lra).
  lra.
Qed.

Lemma sequence_map_In {A B : Type} (f : A -> option B) (g : A -> B)
      (l : list A) :
  (forall a, In a l -> f a = Some (g a)) -> sequence (map f l) = Some (map g l).
Proof.
  induction l as [| a l IH]; intro H; simpl.
  - reflexivity.
  - rewrite (H a (or_introl eq_refl)), IH; [reflexivity |].
    intros b Hb. apply H. now right.
Qed.

Lemma flat_map_single {A B : Type} (f : A -> list B) (g : A -> B) (l : list A) :
  (forall a, f a = [g a]) -> flat_map f l = map g l.
Proof.
  intro H. induction l as [| a l IH]; simpl; [reflexivity |].
  now rewrite H, IH.
Qed.


Lemma gridCell_in_range (hexRadius lat lonOffset lon : R) :
  -90 <= lat <= 90 ->
  HexagonShapes.gridCell hexRadius lat lonOffset lon
  = [gridHexagonAt hexRadius lat (lon + lonOffset)].
Proof.
  intro H. unfold HexagonShapes.gridCell.
  rewrite (proj2 (ltb_false lat (-90))) by lra.
  rewrite (proj2 (ltb_false 90 lat)) by lra.
  reflexivity.
Qed.

Lemma gridRow_value (fuel : nat) (hexRadius lat : R) :
  0 < hexRadius -> -90 <= lat <= 90 ->
  (loopCount 360 (hexRadius * 2.2 * 180) <= fuel)%nat ->
  HexagonShapes.gridRow fuel hexRadius lat
  = Some (map (fun lon =>
                 gridHexagonAt hexRadius lat
                   (lon + HexagonShapes.gridLonOffset
                            (hexRadius * 2.5) (hexRadius * 2.2) lat))
              (map (fun k => -180 + INR k * (hexRadius * 2.2 * 180))
                   (seq 0 (loopCount 360 (hexRadius * 2.2 * 180))))).
Proof.
  intros Hr Hlat Hf. unfold HexagonShapes.gridRow.
  pose proof (forLoopR_count fuel (-180) 360 (hexRadius * 2.2 * 180)
                ltac:(lra) ltac:(lra) Hf) as E.
  replace (-180 + 360) with 180 in E by lra.
  rewrite E. cbn [bind]. f_equal. apply flat_map_single.
  intro lon. now apply gridCell_in_range.
Qed.


Lemma generateHexagonGrid_value (fuel : nat) (subdivisions hexRadius : R) :
  0 < hexRadius ->
  (loopCount 180 (hexRadius * 2.5 * 90) <= fuel)%nat ->
  (loopCount 360 (hexRadius * 2.2 * 180) <= fuel)%nat ->
  HexagonShapes.generateHexagonGrid fuel subdivisions hexRadius
  = Some (List.concat
            (map (fun lat =>
                    map (fun lon =>
                           gridHexagonAt hexRadius lat
                             (lon + HexagonShapes.gridLonOffset
                                      (hexRadius * 2.5) (hexRadius * 2.2) lat))
                        (map (fun k => -180 + INR k * (hexRadius * 2.2 * 180))
                             (seq 0 (loopCount 360 (hexRadius * 2.2 * 180)))))
                 (map (fun k => -90 + INR k * (hexRadius * 2.5 * 90))
                      (seq 0 (loopCount 180 (hexRadius * 2.5 * 90)))))).
Proof.
  intros Hr Hfl Hfc. unfold HexagonShapes.generateHexagonGrid.
  pose proof (forLoopR_count fuel (-90) 180 (hexRadius * 2.5 * 90)
                ltac:(lra) ltac:(lra) Hfl) as E.
  replace (-90 + 180) with 90 in E by lra.
  rewrite E. cbn [bind].
  erewrite sequence_map_In; [reflexivity |].
  intros lat Hin. apply in_map_iff in Hin. destruct Hin as [k [<- Hk]].
  apply in_seq in Hk.
  apply gridRow_value; [exact Hr | | exact Hfc].
  assert (Hs : 0 < hexRadius * 2.5 * 90) by lra.
  pose proof (loopCount_spec 180 _ k Hs ltac:(lra) ltac:(lia)) as Hle.
  pose proof (pos_INR k). split; nra.
Qed.


Lemma loopCount_default_rows : loopCount 180 (0.05 * 2.5 * 90) = 17%nat.
Proof.
  unfold loopCount. rewrite (Int_part_between _ 16); [reflexivity |].
  simpl. lra.
Qed.

Lemma loopCount_default_columns : loopCount 360 (0.05 * 2.2 * 180) = 19%nat.
Proof.
  unfold loopCount. rewrite (Int_part_between _ 18); [reflexivity |].
  simpl. lra.
Qed.


Lemma gridVertexLat_top (hexRadius centerLat : R) :
  HexagonShapes.gridVertexLat hexRadius centerLat 0
  = centerLat + 180 * hexRadius.
Proof.
  unfold HexagonShapes.gridVertexLat. simpl INR.
  replace (PI / 3 * 0) with 0 by ring. rewrite cos_0.
  pose proof PI_RGT_0. field. lra.
Qed.

Lemma gridVertexLat_bottom (hexRadius centerLat : R) :
  HexagonShapes.gridVertexLat hexRadius centerLat 3
  = centerLat - 180 * hexRadius.
Proof.
  unfold HexagonShapes.gridVertexLat. simpl INR.
  replace (PI / 3 * (1 + 1 + 1)) with PI by field. rewrite cos_PI.
  pose proof PI_RGT_0. field. lra.
Qed.

(** X22: generateHexagonGrid does not clamp the latitude of a vertex:
    vertex 0 of a hexagon is at the latitude of the centre plus
    180 * hexRadius and vertex 3 at that latitude minus 180 * hexRadius.
    Away from the poles vertex 0 is a finite point, the projection of that
    latitude; for a centre less than 180 * hexRadius below 90 the
    latitude that is projected is above 90. *)
Theorem X22_first_grid_vertex_latitude (hexRadius centerLat centerLon : R) :
  HexagonShapes.gridVertexLat hexRadius centerLat 0
  = centerLat + 180 * hexRadius /\
  HexagonShapes.gridVertexLat hexRadius centerLat 3
  = centerLat - 180 * hexRadius /\
  (cos (centerLat * PI / 180) <> 0 ->
   exists vertexLon,
     HexagonShapes.gridVertex hexRadius centerLat centerLon 0
     = Some (latLonToVector3 (centerLat + 180 * hexRadius) vertexLon 1)) /\
  (90 - 180 * hexRadius < centerLat ->
   90 < HexagonShapes.gridVertexLat hexRadius centerLat 0).
Proof.
  split; [apply gridVertexLat_top |].
  split; [apply gridVertexLat_bottom |].
  split.
  - intro Hc. unfold HexagonShapes.gridVertex, HexagonShapes.gridVertexLon.
    rewrite div_nonzero by exact Hc. cbn [bind].
    rewrite gridVertexLat_top. eexists. reflexivity.
  - intro H. rewrite gridVertexLat_top. lra.
Qed.

(** The theorem at hexRadius 0.07 and the centre latitude 83.25, the last
    row of that grid below the pole: the latitude projected is 95.85. *)
Lemma X22_witness :
  90 - 180 * 0.07 < 83.25 /\ cos (83.25 * PI / 180) <> 0 /\
  90 < HexagonShapes.gridVertexLat 0.07 83.25 0.
Proof.
  assert (H : 90 - 180 * 0.07 < 83.25) by lra.
  assert (Hc : cos (83.25 * PI / 180) <> 0).
  { pose proof PI_RGT_0.
    assert (0 < cos (83.25 * PI / 180)) by (apply cos_gt_0; lra). lra. }
  split; [exact H | split; [exact Hc |]].
  exact (proj2 (proj2 (proj2 (X22_first_grid_vertex_latitude 0.07 83.25 0))) H).
Defined.

Lemma NoDup_affine (start step : R) (n : nat) :
  step <> 0 -> NoDup (map (fun k => start + INR k * step) (seq 0 n)).
Proof.
  intro Hs. apply NoDup_map_NoDup_ForallPairs; [| apply seq_NoDup].
  intros k k' _ _ E. apply INR_eq.
  apply Rmult_eq_reg_r with step; [lra | exact Hs].
Qed.

Lemma NoDup_grid_ids (off : R -> R) (lats lons : list R) :
  NoDup lats -> NoDup lons ->
  NoDup (List.concat
           (map (fun lat => map (fun lon => (lat, lon + off lat)) lons) lats)).
Proof.
  intros Hlats Hlons. induction Hlats as [| lat lats Hnin _ IH]; simpl.
  - constructor.
  - apply NoDup_app.
    + apply NoDup_map_NoDup_ForallPairs; [| exact Hlons].
      intros a b _ _ E. injection E as E. lra.
    + exact IH.
    + intros [la lo] Hin Hin'.
      apply in_map_iff in Hin. destruct Hin as [lon [E _]].
      injection E as <- _.
      apply in_concat in Hin'. destruct Hin' as [row [Hrow Hin']].
      apply in_map_iff in Hrow. destruct Hrow as [lat' [<- Hlat']].
      apply in_map_iff in Hin'. destruct Hin' as [lon' [E' _]].
      injection E' as -> _. contradiction.
Qed.

Lemma Some_eq_inv {A : Type} (x y : A) : Some x = Some y -> x = y.
Proof. congruence. Qed.

Lemma forLoopR_short (bound step : R) :
  forall (fuel N : nat) (v : R),
    (fuel < N)%nat ->
    (forall k, (k < N)%nat -> v + INR k * step <= bound) ->
    HexagonShapes.forLoopR fuel bound step v = None.
Proof.
  induction fuel as [| fuel IH]; intros N v Hlt Hin.
  - simpl. specialize (Hin 0%nat ltac:(lia)). simpl in Hin.
    destruct (Rle_dec v bound); [reflexivity | lra].
  - cbn [HexagonShapes.forLoopR].
    pose proof (Hin 0%nat ltac:(lia)) as H0. simpl in H0.
    destruct (Rle_dec v bound) as [_ | N0]; [| lra].
    destruct N as [| N]; [lia |].
    rewrite (IH N (v + step)); [reflexivity | lia |].
    intros k Hk. specialize (Hin (S k) ltac:(lia)).
    rewrite S_INR in Hin. lra.
Qed.

Lemma generateHexagonGrid_fuel (fuel : nat) (subdivisions hexRadius : R)
      (hs : list HexagonShapes.GridHexagon) :
  0 < hexRadius ->
  HexagonShapes.generateHexagonGrid fuel subdivisions hexRadius = Some hs ->
  (loopCount 180 (hexRadius * 2.5 * 90) <= fuel)%nat /\
  (loopCount 360 (hexRadius * 2.2 * 180) <= fuel)%nat.
Proof.
  intros Hr Hg.
  assert (Hfl : (loopCount 180 (hexRadius * 2.5 * 90) <= fuel)%nat).
  { apply Nat.nlt_ge. intro Hlt.
    unfold HexagonShapes.generateHexagonGrid in Hg.
    rewrite (forLoopR_short 90 _ fuel _ (-90) Hlt) in Hg; [discriminate |].
    intros k Hk.
    pose proof (loopCount_spec 180 (hexRadius * 2.5 * 90) k
                  ltac:(lra) ltac:(lra) Hk).
    lra. }
  split; [exact Hfl |].
  apply Nat.nlt_ge. intro Hlt.
  unfold HexagonShapes.generateHexagonGrid in Hg.
  pose proof (forLoopR_count fuel (-90) 180 (hexRadius * 2.5 * 90)
                ltac:(lra) ltac:(lra) Hfl) as E.
  replace (-90 + 180) with 90 in E by lra.
  rewrite E in Hg. unfold loopCount at 1 in Hg.
  cbn [seq map sequence bind] in Hg.
  unfold HexagonShapes.gridRow at 1 in Hg.
  rewrite (forLoopR_short 180 _ fuel _ (-180) Hlt) in Hg; [discriminate |].
  intros k Hk.
  pose proof (loopCount_spec 360 (hexRadius * 2.2 * 180) k
                ltac:(lra) ltac:(lra) Hk).
  lra.
Qed.

(** X23: with a positive hexRadius, no two hexagons of the result of
    generateHexagonGrid have the same id: the ids can serve as keys. *)
Theorem X23_first_grid_ids_distinct
        (fuel : nat) (subdivisions hexRadius : R)
        (hs : list HexagonShapes.GridHexagon) :
  0 < hexRadius ->
  HexagonShapes.generateHexagonGrid fuel subdivisions hexRadius = Some hs ->
  NoDup (map HexagonShapes.gridId hs).
Proof.
  intros Hr Hg.
  destruct (generateHexagonGrid_fuel fuel subdivisions hexRadius hs Hr Hg)
    as [Hfl Hfc].
  rewrite (generateHexagonGrid_value fuel subdivisions hexRadius Hr Hfl Hfc) in Hg.
  apply Some_eq_inv in Hg. subst hs.
  rewrite concat_map, map_map.
  erewrite map_ext; [| intro lat; rewrite map_map; reflexivity].
  cbn [gridHexagonAt HexagonShapes.gridId].
  apply (NoDup_grid_ids
           (HexagonShapes.gridLonOffset (hexRadius * 2.5) (hexRadius * 2.2)));
    apply NoDup_affine; lra.
Qed.

(** The theorem at the default hexRadius 0.05. *)
Lemma X23_witness :
  0 < 0.05 /\
  exists hs,
    HexagonShapes.generateHexagonGrid 19 20 0.05 = Some hs /\
    NoDup (map HexagonShapes.gridId hs).
Proof.
  assert (Hr : 0 < 0.05) by lra.
  assert (Hfl : (loopCount 180 (0.05 * 2.5 * 90) <= 19)%nat)
    by (rewrite loopCount_default_rows; lia).
  assert (Hfc : (loopCount 360 (0.05 * 2.2 * 180) <= 19)%nat)
    by (rewrite loopCount_default_columns; lia).
  pose proof (generateHexagonGrid_value 19 20 0.05 Hr Hfl Hfc) as E.
  split; [exact Hr |].
  eexists. split; [exact E |].
  exact (X23_first_grid_ids_distinct 19 20 0.05 _ Hr E).
Defined.

(** ** The round trip, twice *)

Lemma round_trip_shift (lat lon : R) :
  -90 < lat < 90 -> -180 <= lon <= 180 ->
  vector3ToLatLon (latLonToVector3 lat lon 1)
  = (lat, if Rlt_dec lon 0 then lon + 180 else lon - 180).
Proof.
  intros Hlat Hlon. pose proof PI_RGT_0 as Hpi.
  rewrite (surjective_pairing (vector3ToLatLon _)).
  rewrite round_trip_latitude by lra. f_equal.
  set (theta := (lon + 180) * (PI / 180)).
  destruct (Rlt_dec lon 0) as [Hneg | Hnneg].
  - rewrite (round_trip_longitude_angle lat lon theta);
      try reflexivity; try assumption; try (unfold theta; nra).
    replace (theta * 180 / PI + 180) with (lon + 360)
      by (unfold theta; field; lra).
    rewrite rem_small by lra. ring.
  - destruct (Req_dec_T lon 0) as [Hz | Hpos].
    + rewrite (round_trip_longitude_angle lat lon PI);
        try assumption; try lra;
        try (subst lon; replace ((0 + 180) * (PI / 180)) with PI by lra;
             reflexivity).
      replace (PI * 180 / PI + 180) with 360 by (field; lra).
      rewrite rem_self by lra. lra.
    + rewrite (round_trip_longitude_angle lat lon (theta - 2 * PI));
        try assumption; try (unfold theta; nra).
      * replace ((theta - 2 * PI) * 180 / PI + 180) with lon
          by (unfold theta; field; lra).
        rewrite rem_small by lra. ring.
      * fold theta. rewrite <- (sin_period (theta - 2 * PI) 1).
        f_equal. simpl. ring.
      * fold theta. rewrite <- (cos_period (theta - 2 * PI) 1).
        f_equal. simpl. ring.
Qed.

Lemma latLonToVector3_full_turn (lat lon radius : R) :
  latLonToVector3 lat (lon + 360) radius = latLonToVector3 lat lon radius.
Proof.
  unfold latLonToVector3.
  replace ((lon + 360 + 180) * (PI / 180))
    with ((lon + 180) * (PI / 180) + 2 * INR 1 * PI) by (simpl; lra).
  rewrite sin_period, cos_period. reflexivity.
Qed.

Lemma latLonToVector3_half_turn (lat lon radius : R) :
  latLonToVector3 lat (lon + 180) radius
  = mkVector3 (- vx (latLonToVector3 lat lon radius))
              (vy (latLonToVector3 lat lon radius))
              (- vz (latLonToVector3 lat lon radius)).
Proof.
  unfold latLonToVector3; simpl.
  replace ((lon + 180 + 180) * (PI / 180))
    with ((lon + 180) * (PI / 180) + PI) by lra.
  rewrite neg_sin, neg_cos. f_equal; ring.
Qed.

(** X24: for a latitude strictly between -90 and 90 and a longitude in
    [-180, 180], projecting what vector3ToLatLon returns for the projected
    point gives the point turned by half a turn around the y axis:
    (-x, y, -z); and for a longitude below 180 a second round trip gives
    the latitude and the longitude one started from. *)
Theorem X24_round_trip_twice (lat lon : R) :
  -90 < lat < 90 -> -180 <= lon <= 180 ->
  let v := latLonToVector3 lat lon 1 in
  let back := vector3ToLatLon v in
  latLonToVector3 (fst back) (snd back) 1 = mkVector3 (- vx v) (vy v) (- vz v) /\
  (lon < 180 ->
   vector3ToLatLon (latLonToVector3 (fst back) (snd back) 1) = (lat, lon)).
Proof.
  intros Hlat Hlon v back. unfold back, v.
  rewrite (round_trip_shift lat lon Hlat Hlon). cbn [fst snd].
  destruct (Rlt_dec lon 0) as [Hneg | Hnneg].
  - split; [apply latLonToVector3_half_turn |].
    intros _. rewrite round_trip_shift by lra.
    destruct (Rlt_dec (lon + 180) 0) as [N | _]; [lra |].
    f_equal. lra.
  - split.
    + rewrite <- (latLonToVector3_full_turn lat (lon - 180) 1).
      replace (lon - 180 + 360) with (lon + 180) by lra.
      apply latLonToVector3_half_turn.
    + intro Hlt. rewrite round_trip_shift by lra.
      destruct (Rlt_dec (lon - 180) 0) as [_ | N]; [| lra].
      f_equal. lra.
Qed.

(** The theorem at latitude 0, longitude -90. *)
Lemma X24_witness :
  -90 < 0 < 90 /\ -180 <= -90 <= 180 /\ -90 < 180 /\
  vector3ToLatLon
    (latLonToVector3 (fst (vector3ToLatLon (latLonToVector3 0 (-90) 1)))
                     (snd (vector3ToLatLon (latLonToVector3 0 (-90) 1))) 1)
  = (0, -90).
Proof.
  assert (Hlat : -90 < 0 < 90) by lra.
  assert (Hlon : -180 <= -90 <= 180) by lra.
  assert (Hlt : -90 < 180) by lra.
  split; [exact Hlat | split; [exact Hlon | split; [exact Hlt |]]].
  exact (proj2 (X24_round_trip_twice 0 (-90) Hlat Hlon) Hlt).
Defined.
